(** * SOL/token swap price tracker: a shallow embedding and its properties

    The development follows the TypeScript sources:
    - [dammv2_swapInfo.ts] (class [SwapPriceTracker], the constant-product
      quoter over the DAMM v2 pool index), module [Dammv2] below;
    - [price_final.ts] (the bin-model quoter over the DLMM pool index),
      module [Dlmm];
    - [index.ts] (the polling driver), module [Index];
    - [CONSTANTS.ts], module [Constants].

    JavaScript numbers are IEEE 754 binary64 values and are modelled by the
    kernel's primitive floats; [bignumber.js] decimals are rationals with the
    library's default rounding of quotients (20 decimal places, half up). *)

From Stdlib Require Import ZArith QArith Qabs List String Ascii Bool Lia Floats.
Import ListNotations.

Set Implicit Arguments.
Set Warnings "-register-all".

(* ================================================================== *)
(** * JavaScript values and built-ins *)
(* ================================================================== *)

Module JS.

Local Open Scope string_scope.

(** ** Strings *)

(** ASCII part of the ECMAScript WhiteSpace and LineTerminator classes. *)
Definition isWhiteSpace (c : ascii) : bool :=
  let n := nat_of_ascii c in
  ((9 <=? n) && (n <=? 13) || (n =? 32))%nat.

Fixpoint trimStartChars (l : list ascii) : list ascii :=
  match l with
  | c :: t => if isWhiteSpace c then trimStartChars t else l
  | [] => []
  end.

Definition trimChars (l : list ascii) : list ascii :=
  rev (trimStartChars (rev (trimStartChars l))).

(** [String.prototype.trim]. *)
Definition trim (s : string) : string :=
  string_of_list_ascii (trimChars (list_ascii_of_string s)).

Definition lowerChar (c : ascii) : ascii :=
  let n := nat_of_ascii c in
  if ((65 <=? n) && (n <=? 90))%nat then ascii_of_nat (n + 32) else c.

Definition upperChar (c : ascii) : ascii :=
  let n := nat_of_ascii c in
  if ((97 <=? n) && (n <=? 122))%nat then ascii_of_nat (n - 32) else c.

(** [String.prototype.toLowerCase] and [toUpperCase] on ASCII text: the
    letters a-z and A-Z are mapped and every other byte is kept.  On text
    with other letters the built-ins differ (U+017F upper-cases to S);
    a statement that depends on them is made for ASCII text. *)
Definition toLowerCase (s : string) : string :=
  string_of_list_ascii (map lowerChar (list_ascii_of_string s)).

Definition toUpperCase (s : string) : string :=
  string_of_list_ascii (map upperChar (list_ascii_of_string s)).

(** [s.split(sep)] for a one-character separator. *)
Fixpoint splitChars (sep : ascii) (cur : list ascii) (l : list ascii) : list string :=
  match l with
  | [] => [string_of_list_ascii (rev cur)]
  | c :: t =>
      if Ascii.eqb c sep
      then string_of_list_ascii (rev cur) :: splitChars sep [] t
      else splitChars sep (c :: cur) t
  end.

Definition split (sep : ascii) (s : string) : list string :=
  splitChars sep [] (list_ascii_of_string s).

(** [a || b] on a string that may be missing: the empty string and
    [undefined] are both falsy. *)
Definition orElse (s : option string) (d : string) : string :=
  match s with
  | Some x => if String.eqb x "" then d else x
  | None => d
  end.

(** [xs.includes(x)] on strings. *)
Definition includes (xs : list string) (x : string) : bool :=
  existsb (String.eqb x) xs.

(** ** Numbers *)

Definition number := float.

(** [a > b] and [a < b] on numbers: false as soon as one side is NaN. *)
Definition gt (a b : number) : bool := (b <? a)%float.
Definition lt (a b : number) : bool := (a <? b)%float.

Definition isNaN (a : number) : bool := is_nan a.

Definition isDigit (c : ascii) : bool :=
  let n := nat_of_ascii c in ((48 <=? n) && (n <=? 57))%nat.

Definition digitVal (c : ascii) : Z := (Z.of_nat (nat_of_ascii c) - 48)%Z.

Definition digitsValue (ds : list ascii) : Z :=
  fold_left (fun acc c => (acc * 10 + digitVal c)%Z) ds 0%Z.

Fixpoint spanDigits (l : list ascii) : list ascii * list ascii :=
  match l with
  | c :: t =>
      if isDigit c then let '(ds, r) := spanDigits t in (c :: ds, r) else ([], l)
  | [] => ([], [])
  end.

Fixpoint startsWith (p l : list ascii) : bool :=
  match p, l with
  | [], _ => true
  | a :: p', b :: l' => Ascii.eqb a b && startsWith p' l'
  | _ :: _, [] => false
  end.

(** The binary64 value nearest to [(-1)^neg * m * 10^e] (ties to even):
    one correctly rounded operation on exact integers. *)
Definition decimalToDouble (neg : bool) (m : Z) (e : Z) : spec_float :=
  match m with
  | Z0 => S754_zero neg
  | Zpos p =>
      if (0 <=? e)%Z
      then binary_normalize prec emax (cond_Zopp neg (Zpos p * 10 ^ e)) 0 false
      else SFdiv prec emax (S754_finite neg p 0)
                           (S754_finite false (Z.to_pos (10 ^ (- e))) 0)
  | Zneg _ => S754_nan
  end.

Definition takeSign (l : list ascii) : bool * list ascii :=
  match l with
  | "-"%char :: t => (true, t)
  | "+"%char :: t => (false, t)
  | _ => (false, l)
  end.

Definition exponentPart (l : list ascii) : Z :=
  match l with
  | c :: t =>
      if Ascii.eqb c "e" || Ascii.eqb c "E" then
        let '(eneg, t') := takeSign t in
        let '(ed, _) := spanDigits t' in
        match ed with
        | [] => 0%Z
        | _ => cond_Zopp eneg (digitsValue ed)
        end
      else 0%Z
  | [] => 0%Z
  end.

(** The global [parseFloat]: leading white space is skipped, the longest
    prefix that is a StrDecimalLiteral is converted, and NaN is returned when
    there is none. *)
Definition parseFloat (s : string) : number :=
  let l := trimStartChars (list_ascii_of_string s) in
  let '(neg, l1) := takeSign l in
  if startsWith (list_ascii_of_string "Infinity") l1
  then (if neg then neg_infinity else infinity)
  else
    let '(ip, l2) := spanDigits l1 in
    let '(fp, l3) :=
      match l2 with
      | "."%char :: t => spanDigits t
      | _ => ([], l2)
      end in
    match ip, fp with
    | [], [] => nan
    | _, _ =>
        SF2Prim (decimalToDouble neg (digitsValue (ip ++ fp)%list)
                   (exponentPart l3 - Z.of_nat (List.length fp)))
    end.

(** ** Values, objects and JSON *)

Inductive Value : Type :=
| VUndefined
| VNull
| VBool (b : bool)
| VNumber (n : number)
| VString (s : string)
| VArray (items : list Value)
| VObject (props : list (string * Value)).

(** A plain object is the list of its own properties in insertion order. *)
Definition Obj := list (string * Value).

Fixpoint objSet (k : string) (v : Value) (o : Obj) : Obj :=
  match o with
  | [] => [(k, v)]
  | (k', v') :: t =>
      if String.eqb k' k then (k', v) :: t else (k', v') :: objSet k v t
  end.

Fixpoint objGet (k : string) (o : Obj) : option Value :=
  match o with
  | [] => None
  | (k', v) :: t => if String.eqb k' k then Some v else objGet k t
  end.

(** [{ ...base, ...extra }]. *)
Definition objSpread (base extra : Obj) : Obj :=
  fold_left (fun acc kv => objSet (fst kv) (snd kv) acc) extra base.

Definition ofOptString (s : option string) : Value :=
  match s with
  | Some x => VString x
  | None => VUndefined
  end.

(** A length or a count as a number value. *)
Definition ofNat (n : nat) : Value :=
  VNumber (of_uint63 (Uint63.of_Z (Z.of_nat n))).

Definition isFinite (n : number) : bool :=
  negb (is_nan n) && negb (is_infinity n).

(** The properties that survive serialisation: an [undefined] one is left
    out, the others are converted by [f]. *)
Fixpoint mapDefined (f : Value -> Value) (ps : list (string * Value))
  : list (string * Value) :=
  match ps with
  | [] => []
  | (k, VUndefined) :: t => mapDefined f t
  | (k, x) :: t => (k, f x) :: mapDefined f t
  end.

(** [JSON.parse (JSON.stringify v)] for [v] inside an array or an object:
    an [undefined] array item and a non-finite number become [null], an
    [undefined] property is left out, and a zero loses its sign. *)
Fixpoint jsonRoundTrip (v : Value) : Value :=
  match v with
  | VUndefined => VNull
  | VNumber n =>
      if isFinite n then VNumber (if is_zero n then zero else n) else VNull
  | VArray items => VArray (map jsonRoundTrip items)
  | VObject props => VObject (mapDefined jsonRoundTrip props)
  | _ => v
  end.

(** ** Promises and exceptions *)

(** How an awaited call to the outside world settles. *)
Inductive Result (A : Type) : Type :=
| Resolved (a : A)
| Rejected (reason : string).

Arguments Resolved {A} a.
Arguments Rejected {A} reason.

End JS.

(* ================================================================== *)
(** * bignumber.js decimals (default configuration) *)
(* ================================================================== *)

Module BigNumber.

Local Open Scope Q_scope.

(** A BigNumber is NaN, an infinity or a finite decimal.  The sign of a zero
    is not tracked: every amount handled here comes from an unsigned
    on-chain integer. *)
Inductive t : Type :=
| NaN
| Infinity (neg : bool)
| Fin (q : Q).

Definition DECIMAL_PLACES : nat := 20.

Definition ofZ (z : Z) : t := Fin (inject_Z z).

Definition isNeg (q : Q) : bool := (Qnum q <? 0)%Z.

(** ROUNDING_MODE 4 (ROUND_HALF_UP): nearest multiple of [10^-dp], a tie
    going away from zero.  [scaledHalfUp dp q] is that multiple's numerator. *)
Definition scaledHalfUp (dp : nat) (q : Q) : Z :=
  let n := (Z.abs (Qnum q) * 10 ^ Z.of_nat dp)%Z in
  let d := Zpos (Qden q) in
  ((2 * n + d) / (2 * d))%Z.

Definition roundHalfUp (dp : nat) (q : Q) : Q :=
  inject_Z (Z.sgn (Qnum q) * scaledHalfUp dp q) / inject_Z (10 ^ Z.of_nat dp).

(** [x.dividedBy(y)]: the quotient rounded to [DECIMAL_PLACES]. *)
Definition dividedBy (x y : t) : t :=
  match x, y with
  | NaN, _ | _, NaN => NaN
  | Infinity _, Infinity _ => NaN
  | Infinity s, Fin b => Infinity (xorb s (isNeg b))
  | Fin _, Infinity _ => Fin 0
  | Fin a, Fin b =>
      if Qeq_bool b 0
      then (if Qeq_bool a 0 then NaN else Infinity (isNeg a))
      else Fin (roundHalfUp DECIMAL_PLACES (a / b))
  end.

(** [x.multipliedBy(y)]: exact. *)
Definition multipliedBy (x y : t) : t :=
  match x, y with
  | NaN, _ | _, NaN => NaN
  | Infinity s, Infinity s' => Infinity (xorb s s')
  | Infinity s, Fin b => if Qeq_bool b 0 then NaN else Infinity (xorb s (isNeg b))
  | Fin a, Infinity s => if Qeq_bool a 0 then NaN else Infinity (xorb (isNeg a) s)
  | Fin a, Fin b => Fin (a * b)
  end.

(** [new BigNumber(10).pow(n)] for an integer [n]: exact for [n >= 0], the
    rounded quotient [1 / 10^-n] otherwise. *)
Definition pow10 (n : Z) : t :=
  if (0 <=? n)%Z then Fin (inject_Z (10 ^ n))
  else dividedBy (Fin 1) (Fin (inject_Z (10 ^ (- n)))).

Definition isZero (x : t) : bool :=
  match x with
  | Fin q => Qeq_bool q 0
  | _ => false
  end.

Definition digitChar (d : Z) : ascii := ascii_of_nat (48 + Z.to_nat d).

(** Decimal digits of a natural number, most significant first. *)
Fixpoint digitsOf (fuel : nat) (n : Z) (acc : list ascii) : list ascii :=
  match fuel with
  | O => acc
  | S fuel' =>
      let acc' := digitChar (n mod 10) :: acc in
      if (n / 10 =? 0)%Z then acc' else digitsOf fuel' (n / 10) acc'
  end.

Definition natString (n : Z) : string :=
  string_of_list_ascii (digitsOf (S (Z.to_nat (Z.log2 n))) n []).

(** The last [width] decimal digits, zero padded. *)
Fixpoint fixedDigits (width : nat) (n : Z) (acc : list ascii) : list ascii :=
  match width with
  | O => acc
  | S w => fixedDigits w (n / 10) (digitChar (n mod 10) :: acc)
  end.

(** [x.toFixed(dp)]. *)
Definition toFixed (dp : nat) (x : t) : string :=
  match x with
  | NaN => "NaN"
  | Infinity neg => if neg then "-Infinity" else "Infinity"
  | Fin q =>
      let k := scaledHalfUp dp q in
      let s := (10 ^ Z.of_nat dp)%Z in
      let int := natString (k / s) in
      let body :=
        match dp with
        | O => int
        | _ => (int ++ "." ++ string_of_list_ascii (fixedDigits dp (k mod s) []))%string
        end in
      if isNeg q then ("-" ++ body)%string else body
  end.

End BigNumber.

(* ================================================================== *)
(** * CONSTANTS.ts *)
(* ================================================================== *)

Module Constants.

Local Open Scope string_scope.

Definition SOL_MINT : string := "So11111111111111111111111111111111111111112".
Definition API_URL : string := "https://dammv2-api.meteora.ag/pools".

Definition displayNames : list (string * string) :=
  [ ("token_address", "MintB");
    ("token_symbol", "Symbol name");
    ("pool_address", "Pool address");
    ("total_tvl", "TVL");
    ("amount_out_for_1_SOL", "Price");
    ("fee", "Paid to Liquidity Provider");
    ("price_from_sqrt_price", "Current Pool Price");
    ("price_impact", "Price Impact") ].

Fixpoint lookup (k : string) (m : list (string * string)) : option string :=
  match m with
  | [] => None
  | (k', v) :: t => if String.eqb k' k then Some v else lookup k t
  end.

(** [displayNames[key] || key]. *)
Definition displayName (key : string) : string :=
  JS.orElse (lookup key displayNames) key.

End Constants.

(* ================================================================== *)
(** * Solana public keys *)
(* ================================================================== *)

Module PublicKey.

Local Open Scope string_scope.

Definition alphabet : list ascii :=
  list_ascii_of_string "123456789ABCDEFGHJKLMNPQRSTUVWXYZabcdefghijkmnopqrstuvwxyz".

Fixpoint indexOf (c : ascii) (l : list ascii) (i : Z) : option Z :=
  match l with
  | [] => None
  | a :: t => if Ascii.eqb a c then Some i else indexOf c t (i + 1)%Z
  end.

(** Base-58 value of the text, or [None] on a character outside the
    alphabet. *)
Fixpoint decode (l : list ascii) (acc : Z) : option Z :=
  match l with
  | [] => Some acc
  | c :: t =>
      match indexOf c alphabet 0%Z with
      | Some d => decode t (acc * 58 + d)%Z
      | None => None
      end
  end.

Fixpoint leadingOnes (l : list ascii) : Z :=
  match l with
  | "1"%char :: t => (1 + leadingOnes t)%Z
  | _ => 0%Z
  end.

Definition byteLength (v : Z) : Z :=
  if (v =? 0)%Z then 0%Z else (Z.log2 v / 8 + 1)%Z.

(** [new PublicKey(s)] succeeds when [s] is base-58 text for exactly 32
    bytes; the key is then identified with its text ([toBase58]). *)
Definition isValid (s : string) : bool :=
  let l := list_ascii_of_string s in
  match decode l 0%Z with
  | Some v => (leadingOnes l + byteLength v =? 32)%Z
  | None => false
  end.

(** The message of the error [new PublicKey(s)] throws on a text that is
    not valid: the base-58 decoder rejects a character outside the alphabet,
    the constructor a decoded length other than 32. *)
Definition failure (s : string) : string :=
  match decode (list_ascii_of_string s) 0%Z with
  | Some _ => "Invalid public key input"
  | None => "Non-base58 character"
  end.

End PublicKey.

(* ================================================================== *)
(** * Effects: exceptions and the log of outside calls *)
(* ================================================================== *)

Module Eff.

(** What a pass does to the outside world, in order. *)
Inductive Event : Type :=
| HttpGet (url : string) (field : string) (offset : nat)
| FetchPoolState (pool : string)
| GetMint (mint : string)
| GetEpochInfo
| GetSlot
| GetQuote (inAmount : Z) (inputTokenMint : string)
| DlmmCreate (pair : string)
| GetBinArrayForSwap (swapYtoX : bool)
| SwapQuote (amount : Z) (swapYtoX : bool)
| ConsoleLog (parts : list JS.Value)
| ConsoleError (parts : list JS.Value)
| ConsoleClear
| Sleep (ms : nat).

(** How a computation ends: with a value, with an exception, or not yet
    (the paging loop was still running when the step budget ran out). *)
Inductive Outcome (A : Type) : Type :=
| Returns (a : A)
| Throws (reason : string)
| Pending.

Arguments Returns {A} a.
Arguments Throws {A} reason.
Arguments Pending {A}.

Definition M (A : Type) : Type := (Outcome A * list Event)%type.

Definition ret {A} (a : A) : M A := (Returns a, []).

Definition throw {A} (reason : string) : M A := (Throws reason, []).

Definition pending {A} : M A := (Pending, []).

Definition bind {A B} (m : M A) (k : A -> M B) : M B :=
  match m with
  | (Returns a, log) => let '(o, log') := k a in (o, log ++ log')
  | (Throws e, log) => (Throws e, log)
  | (Pending, log) => (Pending, log)
  end.

Definition emit (e : Event) : M unit := (Returns tt, [e]).

(** [try { m } catch (e) { h e }]. *)
Definition tryCatch {A} (m : M A) (h : string -> M A) : M A :=
  match m with
  | (Throws e, log) => let '(o, log') := h e in (o, log ++ log')
  | other => other
  end.

(** [await] on a call that was just issued. *)
Definition settle {A} (r : JS.Result A) : M A :=
  match r with
  | JS.Resolved a => ret a
  | JS.Rejected e => throw e
  end.

Definition await {A} (e : Event) (r : JS.Result A) : M A :=
  bind (emit e) (fun _ => settle r).

(** [await Promise.all([p, q])] once both calls have been issued; when both
    reject, the first one in the array is reported. *)
Definition promiseAll2 {A B} (p : JS.Result A) (q : JS.Result B) : M (A * B) :=
  bind (settle p) (fun a => bind (settle q) (fun b => ret (a, b))).

(** [new PublicKey(s)]. *)
Definition newPublicKey (s : string) : M string :=
  if PublicKey.isValid s then ret s else throw (PublicKey.failure s).

Definition outcome {A} (m : M A) : Outcome A := fst m.
Definition events {A} (m : M A) : list Event := snd m.

End Eff.

Declare Scope eff_scope.
Delimit Scope eff_scope with eff.
Notation "x <- m ;; k" := (Eff.bind m (fun x => k))
  (at level 61, m at next level, right associativity) : eff_scope.
Notation "' pat <- m ;; k" := (Eff.bind m (fun x => match x with pat => k end))
  (at level 61, pat pattern, m at next level, right associativity) : eff_scope.
Notation "m ;;; k" := (Eff.bind m (fun _ => k))
  (at level 61, right associativity) : eff_scope.

(* ================================================================== *)
(** * dammv2_swapInfo.ts: class SwapPriceTracker *)
(* ================================================================== *)

Module Dammv2.

Import Eff.
Local Open Scope string_scope.
Local Open Scope eff_scope.

(** A pool record of the DAMM v2 index.  The optional fields, and [tvl]
    which the code guards with [|| "0"], may be missing. *)
Record PoolData : Type := {
  pool_address : string;
  token_a_mint : string;
  token_b_mint : string;
  token_a_amount : string;
  token_b_amount : string;
  tvl : option string;
  fee_bps : JS.number;
  token_a_symbol : option string;
  token_b_symbol : option string;
  pool_price : option string
}.

(** What [getMint] resolves to (the fields used). *)
Record Mint : Type := {
  address : string;
  decimals : nat
}.

(** The decoded pool account: its own keys and the square-root price. *)
Record PoolState : Type := {
  keys : list string;
  sqrtPrice : Z
}.

(** The argument of [CpAmm.getQuote]. *)
Record QuoteParams : Type := {
  inAmount : Z;
  inputTokenMint : string;
  inputTokenInfo : Mint * Z;
  outputTokenInfo : Mint * Z;
  slippage : Q;
  poolState : PoolState;
  currentSlot : Z;
  currentTime : Z
}.

Record Quote : Type := {
  swapOutAmount : Z;
  totalFee : Z;
  priceImpact : Q
}.

(** The outside world during one pass: the pool index, the RPC node, the
    SDK's pure helpers and the clock. *)
Record Env : Type := {
  (** GET [API_URL] with [field] set to the tracked mint, at [offset]:
      the [data] array of the reply, or the failure of the request. *)
  fetchPage : string -> string -> nat -> JS.Result (list PoolData);
  (** [cpAmm.fetchPoolState]; [None] is a falsy reply. *)
  fetchPoolState : string -> JS.Result (option PoolState);
  getMint : string -> JS.Result Mint;
  getEpochInfo : JS.Result Z;
  getSlot : JS.Result Z;
  getQuote : QuoteParams -> JS.Result Quote;
  (** The SDK's [getPriceFromSqrtPrice (sqrtPrice, decimalsA, decimalsB)]. *)
  getPriceFromSqrtPrice : Z -> nat -> nat -> Q;
  (** [Date.now()], in milliseconds. *)
  dateNow : Z;
  (** [Number.prototype.toFixed]. *)
  numberToFixed : JS.number -> nat -> string
}.

(** The local variables that are live at the final [return] of
    [getRealtimeSwapPrice].  [fee] and [finalPrice] are computed there and
    left out of the returned record (their keys are commented out). *)
Record Locals : Type := {
  pool : PoolData;
  isSolOutput : bool;
  inputMint : Mint;
  outputMint : Mint;
  quote : Quote;
  amountOut : BigNumber.t;
  feeMint : Mint;
  fee : BigNumber.t;
  tokenAMint : Mint;
  tokenBMint : Mint;
  rawPrice : Q;
  finalPrice : BigNumber.t
}.

(** The state of one path of the file system: no file, a file that cannot
    be read, or a file whose text [JSON.parse] rejects ([None]) or reads as a
    value. *)
Inductive FileState : Type :=
| Absent
| Unreadable
| Text (parsed : option JS.Value).

Record FileSystem : Type := {
  files : string -> FileState;
  writable : string -> bool
}.

Definition writeFile (path : string) (st : FileState) (fs : FileSystem) : FileSystem :=
  {| files := fun p => if String.eqb p path then st else files fs p;
     writable := writable fs |}.

(** [parseFloat(pool.tvl || "0")]. *)
Definition tvlValue (p : PoolData) : JS.number :=
  JS.parseFloat (JS.orElse (tvl p) "0").

Section Tracker.

(** [this.tokenAddress.toBase58()], fixed by the constructor. *)
Variable tokenAddress : string.
Variable env : Env.

(** The body of [for (const pool of pools)]: [matchedPools] and
    [seenPoolIds] after one pool. *)
Definition keepPool (st : list PoolData * list string) (p : PoolData)
  : list PoolData * list string :=
  let '(matchedPools, seenPoolIds) := st in
  let poolId := pool_address p in
  if negb (JS.includes seenPoolIds poolId)
     && JS.includes [token_a_mint p; token_b_mint p] Constants.SOL_MINT
  then ((matchedPools ++ [p])%list, (seenPoolIds ++ [poolId])%list)
  else st.

(** The [while (true)] loop over the pages of one query field. *)
Fixpoint pageLoop (fuel : nat) (field : string) (offset : nat)
    (st : list PoolData * list string) : M (list PoolData * list string) :=
  match fuel with
  | O => pending
  | S fuel' =>
      emit (HttpGet Constants.API_URL field offset) ;;;
      match fetchPage env field tokenAddress offset with
      | JS.Rejected e =>
          emit (ConsoleError [JS.VString "Error fetching pools:"; JS.VString e]) ;;;
          ret st
      | JS.Resolved [] => ret st
      | JS.Resolved pools =>
          pageLoop fuel' field (offset + 50) (fold_left keepPool pools st)
      end
  end.

(** [fetchSolTokenPools]: the loop over the two query fields, sharing
    [matchedPools] and [seenPoolIds]. *)
Definition fetchSolTokenPools (fuel : nat) : M (list PoolData) :=
  st1 <- pageLoop fuel "token_a_mint" 0 ([], []) ;;
  st2 <- pageLoop fuel "token_b_mint" 0 st1 ;;
  ret (fst st2).

(** [pools.reduce((max, curr) => ... ? curr : max)] without an initial
    value, or [null] on the empty array. *)
Definition findHighestTvlPool (pools : list PoolData) : option PoolData :=
  match pools with
  | [] => None
  | first :: rest =>
      Some (fold_left
              (fun max curr => if JS.gt (tvlValue curr) (tvlValue max) then curr else max)
              rest first)
  end.

(** [!poolState || Object.keys(poolState).length === 0]. *)
Definition stateUnavailable (s : option PoolState) : bool :=
  match s with
  | None => true
  | Some st => match keys st with [] => true | _ => false end
  end.

(** [new BigNumber(raw.toString()).dividedBy(new BigNumber(10).pow(m.decimals))]. *)
Definition normalized (raw : Z) (m : Mint) : BigNumber.t :=
  BigNumber.dividedBy (BigNumber.ofZ raw) (BigNumber.pow10 (Z.of_nat (decimals m))).

(** [getRealtimeSwapPrice], returning the record together with the locals
    of the final [return] (none on an early one). *)
Definition runPass (fuel : nat) : M (JS.Obj * option Locals) :=
  pools <- fetchSolTokenPools fuel ;;
  match findHighestTvlPool pools with
  | None => ret ([("error", JS.VString "No SOL-token pool found.")], None)
  | Some pool =>
      poolKey <- newPublicKey (pool_address pool) ;;
      fetched <- await (FetchPoolState poolKey) (fetchPoolState env poolKey) ;;
      if stateUnavailable fetched
      then ret ([("error", JS.VString "Failed to fetch or parse valid pool state.")], None)
      else
        match fetched with
        | None =>
            (* not reached: a falsy state is unavailable *)
            ret ([("error", JS.VString "Failed to fetch or parse valid pool state.")], None)
        | Some state =>
          let isSolOutput := negb (String.eqb (token_a_mint pool) Constants.SOL_MINT) in
          emit (GetMint Constants.SOL_MINT) ;;;
          otherKey <- newPublicKey (if isSolOutput then token_a_mint pool
                                    else token_b_mint pool) ;;
          emit (GetMint otherKey) ;;;
          '(inputMint, outputMint) <-
            promiseAll2 (getMint env Constants.SOL_MINT) (getMint env otherKey) ;;
          epochIn <- await GetEpochInfo (getEpochInfo env) ;;
          epochOut <- await GetEpochInfo (getEpochInfo env) ;;
          slot <- await GetSlot (getSlot env) ;;
          let params :=
            {| inAmount := 1000000000;
               inputTokenMint := Constants.SOL_MINT;
               inputTokenInfo := (inputMint, epochIn);
               outputTokenInfo := (outputMint, epochOut);
               slippage := 5 # 10;
               poolState := state;
               currentSlot := slot;
               currentTime := (dateNow env / 1000)%Z |} in
          quote <- await (GetQuote (inAmount params) (inputTokenMint params))
                         (getQuote env params) ;;
          let amountOut := normalized (swapOutAmount quote) outputMint in
          let feeMint := if isSolOutput then inputMint else outputMint in
          let fee := normalized (totalFee quote) feeMint in
          keyA <- newPublicKey (token_a_mint pool) ;;
          emit (GetMint keyA) ;;;
          keyB <- newPublicKey (token_b_mint pool) ;;
          emit (GetMint keyB) ;;;
          '(tokenAMint, tokenBMint) <-
            promiseAll2 (getMint env keyA) (getMint env keyB) ;;
          let rawPrice :=
            getPriceFromSqrtPrice env (sqrtPrice state)
              (decimals tokenAMint) (decimals tokenBMint) in
          let finalPrice :=
            if String.eqb tokenAddress (token_a_mint pool)
            then BigNumber.dividedBy (BigNumber.Fin 1) (BigNumber.Fin rawPrice)
            else BigNumber.Fin rawPrice in
          ret ([ ("pool_address", JS.VString (pool_address pool));
                 ("amount_out_for_1_SOL", JS.VString (BigNumber.toFixed 6 amountOut));
                 ("total_tvl", JS.VString (numberToFixed env (tvlValue pool) 2));
                 ("token_symbol",
                  JS.ofOptString
                    (if String.eqb tokenAddress (token_a_mint pool)
                     then token_a_symbol pool else token_b_symbol pool));
                 ("token_address", JS.VString tokenAddress) ],
               Some {| pool := pool; isSolOutput := isSolOutput;
                       inputMint := inputMint; outputMint := outputMint;
                       quote := quote; amountOut := amountOut;
                       feeMint := feeMint; fee := fee;
                       tokenAMint := tokenAMint; tokenBMint := tokenBMint;
                       rawPrice := rawPrice; finalPrice := finalPrice |})
        end
  end.

Definition getRealtimeSwapPrice (fuel : nat) : M JS.Obj :=
  r <- runPass fuel ;; ret (fst r).

End Tracker.

(** [printFormattedResult]: one line per own key, then a blank block. *)
Definition printFormattedResult (result : JS.Obj) : list Event :=
  (map (fun kv => ConsoleLog [JS.VString (Constants.displayName (fst kv)); snd kv]) result
   ++ [ConsoleLog [JS.VString ""]])%list.

(** The [formatted] object of [saveFormattedResultToJson]. *)
Definition formatResult (result : JS.Obj) : JS.Obj :=
  fold_left (fun formatted kv => JS.objSet (Constants.displayName (fst kv)) (snd kv) formatted)
            result [].

(** [{ timestamp: new Date().toISOString(), ...formatted }]. *)
Definition logEntry (isoNow : string) (result : JS.Obj) : JS.Value :=
  JS.VObject (JS.objSpread [("timestamp", JS.VString isoNow)] (formatResult result)).

(** [dataArray] once the existing file has been looked at. *)
Definition loadArray (st : FileState) : list JS.Value :=
  match st with
  | Absent => []
  | Unreadable => []
  | Text None => []
  | Text (Some (JS.VArray items)) => items
  | Text (Some _) => []
  end.

(** [saveFormattedResultToJson (result, filename)] at time [isoNow]: the
    file then holds the text of [JSON.stringify(dataArray, null, 2)], which
    reads back as [jsonRoundTrip] of the array. *)
Definition saveFormattedResultToJson (result : JS.Obj) (filename : string)
    (isoNow : string) (fs : FileSystem) : Outcome unit * FileSystem :=
  let dataArray := (loadArray (files fs filename) ++ [logEntry isoNow result])%list in
  if writable fs filename
  then (Returns tt,
        writeFile filename (Text (Some (JS.jsonRoundTrip (JS.VArray dataArray)))) fs)
  else (Throws "EACCES: permission denied", fs).

End Dammv2.

(* ================================================================== *)
(** * price_final.ts: the bin-model (DLMM) quoter *)
(* ================================================================== *)

Module Dlmm.

Import Eff.
Local Open Scope string_scope.
Local Open Scope eff_scope.

Definition API_URL : string := "https://dlmm-api.meteora.ag/pair/all".

Record PoolData : Type := {
  address : string;
  name : string;
  mint_x : string;
  mint_y : string;
  reserve_x_amount : JS.number;
  reserve_y_amount : JS.number;
  bin_step : JS.number;
  liquidity : option string;
  current_price : JS.number;
  mint_x_symbol : option string;
  mint_y_symbol : option string
}.

Record Mint : Type := {
  mintAddress : string;
  decimals : nat
}.

(** [dlmmPool.lbPair] (the fields used); [activeId] may be undefined. *)
Record LbPair : Type := {
  activeId : option JS.number;
  binStep : JS.number
}.

Record SwapQuoteResult : Type := {
  minOutAmount : Z;
  quoteFee : Z
}.

Record Env : Type := {
  (** GET [API_URL]: the array of the reply, or the failure of the request. *)
  fetchAll : JS.Result (list PoolData);
  (** [DLMM.create]; the pool's [lbPair] may be missing. *)
  dlmmCreate : string -> JS.Result (option LbPair);
  getMint : string -> JS.Result Mint;
  getBinArrayForSwap : bool -> JS.Result unit;
  swapQuote : Z -> bool -> JS.Result SwapQuoteResult;
  (** [Math.pow], an implementation-approximated function of the host. *)
  mathPow : JS.number -> JS.number -> JS.number;
  (** [new BigNumber(n)] and [x.toNumber()] for a number [n]. *)
  bigNumberOfNumber : JS.number -> BigNumber.t;
  bigNumberToNumber : BigNumber.t -> JS.number;
  numberToFixed : JS.number -> nat -> string
}.

(** [parseFloat(pool.liquidity || "0")]. *)
Definition liquidityValue (p : PoolData) : JS.number :=
  JS.parseFloat (JS.orElse (liquidity p) "0").

(** The filter of [fetchSolTokenPools]. *)
Definition isSolToToken (tokenAddressStr solAddressStr : string) (p : PoolData) : bool :=
  let mintX := JS.trim (JS.toLowerCase (mint_x p)) in
  let mintY := JS.trim (JS.toLowerCase (mint_y p)) in
  (String.eqb mintX solAddressStr && String.eqb mintY tokenAddressStr)
  || (String.eqb mintY solAddressStr && String.eqb mintX tokenAddressStr).

Definition hasLiquidity (p : PoolData) : bool :=
  JS.gt (liquidityValue p) 0%float.

Definition hasReserves (p : PoolData) : bool :=
  JS.gt (reserve_x_amount p) 0%float && JS.gt (reserve_y_amount p) 0%float.

Definition usable (tokenAddress : string) (p : PoolData) : bool :=
  isSolToToken (JS.trim (JS.toLowerCase tokenAddress))
               (JS.toLowerCase Constants.SOL_MINT) p
  && hasLiquidity p && hasReserves p.

(** [fetchSolTokenPools]: one request for every pair, filtered; any failure
    of the request yields the empty list. *)
Definition fetchSolTokenPools (env : Env) (tokenAddress : string) : M (list PoolData) :=
  tryCatch
    (allPools <- await (HttpGet API_URL "" 0) (fetchAll env) ;;
     emit (ConsoleLog [JS.VString "Scanning"; JS.ofNat (List.length allPools);
                       JS.VString "pools for SOL-Token pairs..."]) ;;;
     let matchedPools := filter (usable tokenAddress) allPools in
     emit (ConsoleLog [JS.VString "Found"; JS.ofNat (List.length matchedPools);
                       JS.VString "usable SOL-Token pools"]) ;;;
     ret matchedPools)
    (fun error =>
       emit (ConsoleError [JS.VString "Error fetching pools:"; JS.VString error]) ;;;
       ret []).

(** [Array.prototype.sort] with a comparator: a stable sort, written as an
    insertion sort that moves an element past those the comparator puts
    strictly before it. *)
Fixpoint insertSorted {A} (cmp : A -> A -> JS.number) (x : A) (l : list A) : list A :=
  match l with
  | [] => [x]
  | y :: t =>
      if JS.gt (cmp x y) 0%float then y :: insertSorted cmp x t else x :: y :: t
  end.

Definition sort {A} (cmp : A -> A -> JS.number) (l : list A) : list A :=
  fold_right (insertSorted cmp) [] l.

(** The comparator [(a, b) => liquidityB - liquidityA]. *)
Definition byLiquidityDesc (a b : PoolData) : JS.number :=
  (liquidityValue b - liquidityValue a)%float.

Definition findHighestLiquidityPool (pools : list PoolData) : option PoolData :=
  match pools with
  | [] => None
  | _ => hd_error (sort byLiquidityDesc pools)
  end.

(** [parts.find(part => part.toUpperCase() !== 'SOL') || 'UNKNOWN']. *)
Definition parseTokenSymbol (poolName : string) : string :=
  let parts := JS.split "-" poolName in
  if (2 <=? List.length parts)%nat
  then JS.orElse (find (fun part => negb (String.eqb (JS.toUpperCase part) "SOL")) parts)
                 "UNKNOWN"
  else "UNKNOWN".

(** The instantaneous price of the active bin, as the code computes it. *)
Definition priceOfYinX (env : Env) (lb : LbPair) (active : JS.number) (mintX mintY : Mint)
  : BigNumber.t :=
  BigNumber.multipliedBy
    (bigNumberOfNumber env (mathPow env (1 + binStep lb / 10000)%float active))
    (BigNumber.pow10 (Z.of_nat (decimals mintX) - Z.of_nat (decimals mintY))).

Definition realTimePriceOf (env : Env) (lbPair : option LbPair) (solIsMintX : bool)
    (mintX mintY : Mint) : option JS.number :=
  match lbPair with
  | Some lb =>
      match activeId lb with
      | Some active =>
          let p := priceOfYinX env lb active mintX mintY in
          if solIsMintX then Some (bigNumberToNumber env p)
          else if negb (BigNumber.isZero p)
               then Some (bigNumberToNumber env
                            (BigNumber.dividedBy (BigNumber.Fin 1) p))
               else None
      | None => None
      end
  | None => None
  end.

(** [realTimePrice ? parseFloat(realTimePrice.toFixed(6)) : null]. *)
Definition priceField (env : Env) (realTimePrice : option JS.number) : JS.Value :=
  match realTimePrice with
  | Some p =>
      if is_nan p || is_zero p then JS.VNull
      else JS.VNumber (JS.parseFloat (numberToFixed env p 6))
  | None => JS.VNull
  end.

(** [getRealtimeSwapPrice].  The inner [try] around the price computation
    guards pure arithmetic and never catches anything; the amounts
    normalised after the quote ([tokenAmountOut], [solAmountIn], [feeInSol],
    [tokensPerSol]) are computed, cannot throw, and are not returned. *)
Definition getRealtimeSwapPrice (env : Env) (tokenAddress : string) : M JS.Obj :=
  pools <- fetchSolTokenPools env tokenAddress ;;
  match findHighestLiquidityPool pools with
  | None => ret [("error", JS.VString "No DLMM SOL-token pool found.")]
  | Some pool =>
      tryCatch
        (pairAddress <- newPublicKey (address pool) ;;
         lbPair <- await (DlmmCreate pairAddress) (dlmmCreate env pairAddress) ;;
         keyX <- newPublicKey (mint_x pool) ;;
         emit (GetMint keyX) ;;;
         keyY <- newPublicKey (mint_y pool) ;;
         emit (GetMint keyY) ;;;
         '(mintX, mintY) <- promiseAll2 (getMint env keyX) (getMint env keyY) ;;
         let solIsMintX :=
           String.eqb (JS.trim (JS.toLowerCase (mint_x pool)))
                      (JS.toLowerCase Constants.SOL_MINT) in
         let swapAmount := 1000000000%Z in
         let swapYtoX := if solIsMintX then false else true in
         let realTimePrice := realTimePriceOf env lbPair solIsMintX mintX mintY in
         _ <- await (GetBinArrayForSwap swapYtoX) (getBinArrayForSwap env swapYtoX) ;;
         _ <- await (SwapQuote swapAmount swapYtoX) (swapQuote env swapAmount swapYtoX) ;;
         ret [ ("Pool address", JS.VString (address pool));
               ("Price", priceField env realTimePrice);
               ("TVL", JS.VNumber (liquidityValue pool));
               ("Symbol name", JS.VString (parseTokenSymbol (name pool)));
               ("MintB", JS.VString tokenAddress) ])
        (fun message =>
           emit (ConsoleError [JS.VString "Swap calculation failed:"; JS.VString message]) ;;;
           ret [("error", JS.VString ("Swap calculation failed: " ++ message))])
  end.

End Dlmm.

(* ================================================================== *)
(** * index.ts: the polling driver *)
(* ================================================================== *)

Module Index.

Import Eff.
Local Open Scope string_scope.

(** The outside world of the whole run: the environment each pass meets and
    the clock readings of that pass. *)
Record World : Type := {
  envAt : nat -> Dammv2.Env;
  isoTimeAt : nat -> string;
  localeTimeAt : nat -> string
}.

(** Where [main] stands once some number of passes have been allowed: still
    inside [while (true)], out of it through the [catch] clause, or inside a
    pass whose paging loop has not finished. *)
Inductive Driver : Type :=
| Looping (completed : nat) (fs : Dammv2.FileSystem) (log : list Event)
| Exited (pass : nat) (reason : string) (fs : Dammv2.FileSystem) (log : list Event)
| Stalled (pass : nat) (fs : Dammv2.FileSystem) (log : list Event).

Definition caught (reason : string) : Event :=
  ConsoleError [JS.VString "Invalid token address or error:"; JS.VString reason].

Section Main.

Variable world : World.
Variable tokenAddress : string.
(** Step budget of each pass's paging loops. *)
Variable fuel : nat.

(** [passes] more iterations of [while (true)], the next one being
    iteration [i]. *)
Fixpoint loop (passes : nat) (i : nat) (fs : Dammv2.FileSystem) (log : list Event)
  : Driver :=
  match passes with
  | O => Looping i fs log
  | S passes' =>
      match Dammv2.getRealtimeSwapPrice tokenAddress (envAt world i) fuel with
      | (Returns result, evs) =>
          let log1 :=
            (log ++ evs
             ++ [ConsoleLog [JS.VString (localeTimeAt world i);
                             JS.VString "Real-time swap info:"]]
             ++ Dammv2.printFormattedResult result)%list in
          match Dammv2.saveFormattedResultToJson result "latest_price.json"
                  (isoTimeAt world i) fs with
          | (Returns _, fs') => loop passes' (S i) fs' (log1 ++ [Sleep 1000])%list
          | (Throws e, fs') => Exited i e fs' (log1 ++ [caught e])%list
          | (Pending, fs') => Stalled i fs' log1
          end
      | (Throws e, evs) => Exited i e fs (log ++ evs ++ [caught e])%list
      | (Pending, evs) => Stalled i fs (log ++ evs)%list
      end
  end.

End Main.

(** [main] on the trimmed line read from standard input. *)
Definition main (world : World) (fuel : nat) (tokenInput : string) (passes : nat)
    (fs : Dammv2.FileSystem) : Driver :=
  if PublicKey.isValid tokenInput
  then loop world tokenInput fuel passes 0 fs
            [ConsoleLog [JS.VString "Tracking SOL ->"; JS.VString tokenInput]]
  else Exited 0 (PublicKey.failure tokenInput) fs
              [caught (PublicKey.failure tokenInput)].

End Index.

(* ================================================================== *)
(** * Vocabulary of the statements *)
(* ================================================================== *)

Module Spec.

Local Open Scope Z_scope.

(** Position of a binary64 value on the extended integer line, in units of
    the least subnormal [2^-1074]; the infinities sit beyond every finite
    value and both zeros at 0.  (NaN has no position; 0 is a filler.) *)
Definition beyond : Z := 2 ^ 3000.

Definition rk (x : spec_float) : Z :=
  match x with
  | S754_zero _ => 0
  | S754_infinity s => cond_Zopp s beyond
  | S754_nan => 0
  | S754_finite s m e => cond_Zopp s (Zpos m * 2 ^ (e + 1074))
  end.

Definition rank (a : JS.number) : Z := rk (Prim2SF a).

(** [r] is a finite value or an infinity of sign [s]. *)
Definition has_sign (s : bool) (r : spec_float) : Prop :=
  match r with
  | S754_finite s' _ _ | S754_infinity s' => s' = s
  | _ => False
  end.

(** [r] is the first element of [l] whose [key] is the greatest: nothing in
    [l] exceeds it and everything before it is strictly smaller. *)
Definition firstMaximum {A} (key : A -> JS.number) (l : list A) (r : A) : Prop :=
  exists before after,
    l = (before ++ r :: after)%list
    /\ (forall q, In q l -> (key q <=? key r)%float = true)
    /\ (forall q, In q before -> (key q <? key r)%float = true).

(** No key of the list is NaN. *)
Definition allNumeric {A} (key : A -> JS.number) (l : list A) : Prop :=
  forall q, In q l -> JS.isNaN (key q) = false.

(** The step of a scan that keeps its accumulator unless the current
    element is strictly greater, and the comparator of a descending sort. *)
Definition keepGreater {A} (key : A -> JS.number) (max curr : A) : A :=
  if JS.gt (key curr) (key max) then curr else max.

Definition byKeyDesc {A} (key : A -> JS.number) (a b : A) : JS.number :=
  (key b - key a)%float.

(** What the DAMM v2 scan keeps: a pool served by the index in reply to a
    query on this token, with the native mint on one side. *)
Definition kept (tokenAddress : string) (env : Dammv2.Env) (p : Dammv2.PoolData) : Prop :=
  (Dammv2.token_a_mint p = Constants.SOL_MINT
   \/ Dammv2.token_b_mint p = Constants.SOL_MINT)
  /\ exists field offset page,
       Dammv2.fetchPage env field tokenAddress offset = JS.Resolved page /\ In p page.

(** What a pass that reaches its final [return] with locals [L] has seen:
    the discovered pools, the pool state and the quote request. *)
Record Reached (tokenAddress : string) (env : Dammv2.Env) (fuel : nat)
    (L : Dammv2.Locals) (pools : list Dammv2.PoolData) (state : Dammv2.PoolState)
    (params : Dammv2.QuoteParams) : Prop := {
  reached_discovery :
    exists log,
      Dammv2.fetchSolTokenPools tokenAddress env fuel = (Eff.Returns pools, log);
  reached_select : Dammv2.findHighestTvlPool pools = Some (Dammv2.pool L);
  reached_fetch :
    Dammv2.fetchPoolState env (Dammv2.pool_address (Dammv2.pool L))
    = JS.Resolved (Some state);
  reached_usable : Dammv2.keys state <> [];
  reached_side :
    Dammv2.isSolOutput L
    = negb (String.eqb (Dammv2.token_a_mint (Dammv2.pool L)) Constants.SOL_MINT);
  reached_input :
    Dammv2.getMint env Constants.SOL_MINT = JS.Resolved (Dammv2.inputMint L);
  reached_output :
    Dammv2.getMint env (if Dammv2.isSolOutput L
                        then Dammv2.token_a_mint (Dammv2.pool L)
                        else Dammv2.token_b_mint (Dammv2.pool L))
    = JS.Resolved (Dammv2.outputMint L);
  reached_quote : Dammv2.getQuote env params = JS.Resolved (Dammv2.quote L);
  reached_inAmount : Dammv2.inAmount params = 1000000000%Z;
  reached_inMint : Dammv2.inputTokenMint params = Constants.SOL_MINT;
  reached_quoteState : Dammv2.poolState params = state;
  reached_amountOut :
    Dammv2.amountOut L
    = Dammv2.normalized (Dammv2.swapOutAmount (Dammv2.quote L)) (Dammv2.outputMint L);
  reached_feeMint :
    Dammv2.feeMint L
    = if Dammv2.isSolOutput L then Dammv2.inputMint L else Dammv2.outputMint L;
  reached_fee :
    Dammv2.fee L = Dammv2.normalized (Dammv2.totalFee (Dammv2.quote L)) (Dammv2.feeMint L);
  reached_mintA :
    Dammv2.getMint env (Dammv2.token_a_mint (Dammv2.pool L))
    = JS.Resolved (Dammv2.tokenAMint L);
  reached_mintB :
    Dammv2.getMint env (Dammv2.token_b_mint (Dammv2.pool L))
    = JS.Resolved (Dammv2.tokenBMint L);
  reached_rawPrice :
    Dammv2.rawPrice L
    = Dammv2.getPriceFromSqrtPrice env (Dammv2.sqrtPrice state)
        (Dammv2.decimals (Dammv2.tokenAMint L)) (Dammv2.decimals (Dammv2.tokenBMint L));
  reached_finalPrice :
    Dammv2.finalPrice L
    = if String.eqb tokenAddress (Dammv2.token_a_mint (Dammv2.pool L))
      then BigNumber.dividedBy (BigNumber.Fin 1) (BigNumber.Fin (Dammv2.rawPrice L))
      else BigNumber.Fin (Dammv2.rawPrice L)
}.


(** The entry a call leaves in the file, as it reads back. *)
Definition storedEntry (call : JS.Obj * string) : JS.Value :=
  JS.jsonRoundTrip (Dammv2.logEntry (snd call) (fst call)).



(** The event is a call to the pool's quoting function. *)
Definition isGetQuote (e : Eff.Event) : bool :=
  match e with
  | Eff.GetQuote _ _ => true
  | _ => false
  end.

End Spec.

(* ================================================================== *)
(** * Concrete inputs *)
(* ================================================================== *)

Module Examples.

Import Eff.
Local Open Scope string_scope.

Definition USDC : string := "EPjFWdd5AufqSSqeM2qN1xzybapC8G4wEGGkZwyTDt1v".
Definition BONK : string := "DezXAZ8z7PnrnRJjz3wXBoRgixCa6xjnB7YaB1pPB263".
Definition POOL_1 : string := "11111111111111111111111111111111".
Definition POOL_2 : string := "Es9vMFrzaCERmJfrF4H2FYD4KCoNkY11McCe8BenwNYB".

Definition dammPool (addr a b : string) (tvl : option string) : Dammv2.PoolData :=
  {| Dammv2.pool_address := addr;
     Dammv2.token_a_mint := a;
     Dammv2.token_b_mint := b;
     Dammv2.token_a_amount := "1000";
     Dammv2.token_b_amount := "1000";
     Dammv2.tvl := tvl;
     Dammv2.fee_bps := 25%float;
     Dammv2.token_a_symbol := Some "A";
     Dammv2.token_b_symbol := Some "B";
     Dammv2.pool_price := None |}.

(** SOL on side A, USDC on side B. *)
Definition solUsdcPool : Dammv2.PoolData :=
  dammPool POOL_1 Constants.SOL_MINT USDC (Some "500").

(** USDC on side A, SOL on side B. *)
Definition usdcSolPool : Dammv2.PoolData :=
  dammPool POOL_2 USDC Constants.SOL_MINT (Some "100").

(** Two pools of equal liquidity and a smaller one. *)
Definition tiedPools : list Dammv2.PoolData :=
  [ dammPool POOL_2 USDC Constants.SOL_MINT (Some "100");
    dammPool POOL_1 Constants.SOL_MINT USDC (Some "500.0");
    dammPool POOL_2 Constants.SOL_MINT USDC (Some "5e2") ].

(** A pool whose [tvl] text is not a number, then a pool worth 5. *)
Definition unpricedPool : Dammv2.PoolData :=
  dammPool POOL_1 Constants.SOL_MINT USDC (Some "n/a").

Definition fivePool : Dammv2.PoolData :=
  dammPool POOL_2 Constants.SOL_MINT USDC (Some "5").

Definition mintOf (a : string) : JS.Result Dammv2.Mint :=
  if String.eqb a Constants.SOL_MINT
  then JS.Resolved {| Dammv2.address := a; Dammv2.decimals := 9 |}
  else if String.eqb a USDC
       then JS.Resolved {| Dammv2.address := a; Dammv2.decimals := 6 |}
       else JS.Rejected "could not find mint".

Definition someState : Dammv2.PoolState :=
  {| Dammv2.keys := ["sqrtPrice"; "liquidity"; "tokenAMint"; "tokenBMint"];
     Dammv2.sqrtPrice := 225000000000000000000 |}.

(** An index that serves [page] on the first page of the side-B query and
    nothing else; a node that answers every call; the quote 150 USDC out,
    0.375 USDC of fee; a pool price of [price]. *)
Definition envServing (page : list Dammv2.PoolData)
    (state : JS.Result (option Dammv2.PoolState)) (price : Q) : Dammv2.Env :=
  {| Dammv2.fetchPage := fun field _ offset =>
       if String.eqb field "token_b_mint" && Nat.eqb offset 0
       then JS.Resolved page else JS.Resolved [];
     Dammv2.fetchPoolState := fun _ => state;
     Dammv2.getMint := mintOf;
     Dammv2.getEpochInfo := JS.Resolved 700%Z;
     Dammv2.getSlot := JS.Resolved 300000000%Z;
     Dammv2.getQuote := fun _ =>
       JS.Resolved {| Dammv2.swapOutAmount := 150000000;
                      Dammv2.totalFee := 375000;
                      Dammv2.priceImpact := 1 # 1000 |};
     Dammv2.getPriceFromSqrtPrice := fun _ _ _ => price;
     Dammv2.dateNow := 1700000000000%Z;
     Dammv2.numberToFixed := fun _ _ => "500.00" |}.

(** SOL is side A of the only pool. *)
Definition sideAEnv : Dammv2.Env :=
  envServing [solUsdcPool] (JS.Resolved (Some someState)) 150.

(** SOL is side B of the only pool, the tracked token side A. *)
Definition sideBEnv : Dammv2.Env :=
  envServing [usdcSolPool] (JS.Resolved (Some someState)) (1 # 150).

(** The node has no usable state for the pool. *)
Definition emptyStateEnv : Dammv2.Env :=
  envServing [solUsdcPool]
    (JS.Resolved (Some {| Dammv2.keys := []; Dammv2.sqrtPrice := 0 |})) 150.

(** The call that fetches the pool state fails. *)
Definition failingStateEnv : Dammv2.Env :=
  envServing [solUsdcPool] (JS.Rejected "failed to get info about account") 150.

(** The index serves nothing. *)
Definition emptyIndexEnv : Dammv2.Env :=
  envServing [] (JS.Resolved (Some someState)) 150.

Definition failingWorld : Index.World :=
  {| Index.envAt := fun _ => failingStateEnv;
     Index.isoTimeAt := fun _ => "2024-01-01T00:00:00.000Z";
     Index.localeTimeAt := fun _ => "12:00:00 AM" |}.

Definition emptyDisk : Dammv2.FileSystem :=
  {| Dammv2.files := fun _ => Dammv2.Absent; Dammv2.writable := fun _ => true |}.




Definition dlmmPool (x y : string) (liq : option string) (rx ry : JS.number)
  : Dlmm.PoolData :=
  {| Dlmm.address := POOL_1;
     Dlmm.name := "SOL-USDC";
     Dlmm.mint_x := x;
     Dlmm.mint_y := y;
     Dlmm.reserve_x_amount := rx;
     Dlmm.reserve_y_amount := ry;
     Dlmm.bin_step := 25%float;
     Dlmm.liquidity := liq;
     Dlmm.current_price := 150%float;
     Dlmm.mint_x_symbol := None;
     Dlmm.mint_y_symbol := None |}.

(** A funded pair, an unfunded one, and one whose native mint is written in
    lower case. *)
Definition fundedPair : Dlmm.PoolData :=
  dlmmPool Constants.SOL_MINT USDC (Some "1200.5") 10%float 1500%float.

Definition drainedPair : Dlmm.PoolData :=
  dlmmPool Constants.SOL_MINT USDC (Some "0") 10%float 0%float.

Definition lowerCasePair : Dlmm.PoolData :=
  dlmmPool "so11111111111111111111111111111111111111112" USDC (Some "3")
           1%float 1%float.

Definition dlmmEnv (reply : JS.Result (list Dlmm.PoolData)) : Dlmm.Env :=
  {| Dlmm.fetchAll := reply;
     Dlmm.dlmmCreate := fun _ => JS.Rejected "account not found";
     Dlmm.getMint := fun a => JS.Resolved {| Dlmm.mintAddress := a; Dlmm.decimals := 9 |};
     Dlmm.getBinArrayForSwap := fun _ => JS.Resolved tt;
     Dlmm.swapQuote := fun _ _ =>
       JS.Resolved {| Dlmm.minOutAmount := 0; Dlmm.quoteFee := 0 |};
     Dlmm.mathPow := fun _ _ => 1%float;
     Dlmm.bigNumberOfNumber := fun _ => BigNumber.Fin 1;
     Dlmm.bigNumberToNumber := fun _ => 1%float;
     Dlmm.numberToFixed := fun _ _ => "1.000000" |}.

End Examples.

(* ================================================================== *)
(** * price_final.ts: main *)
(* ================================================================== *)

Module PriceFinalMain.

Import Eff.
Local Open Scope string_scope.

(** The outside world of the whole run. *)
Record World : Type := {
  envAt : nat -> Dlmm.Env;
  localeTimeAt : nat -> string
}.

(** Where [main] stands once some number of passes have been allowed: it
    returned for want of an input, it is still inside [while (true)], it left
    the loop through the [catch] clause, or a pass has not finished. *)
Inductive Run : Type :=
| NoInput (log : list Event)
| Looping (completed : nat) (log : list Event)
| Exited (pass : nat) (reason : string) (log : list Event)
| Stalled (pass : nat) (log : list Event).

Definition caught (reason : string) : Event :=
  ConsoleError [JS.VString "Error:"; JS.VString reason].

(** What one iteration does once the pass has returned: it clears the
    screen, prints the time and the record (as JSON text) and waits. *)
Definition report (localeTime : string) (result : JS.Obj) : list Event :=
  [ ConsoleClear;
    ConsoleLog [JS.VString localeTime; JS.VString "SOL -> Token Swap Info:"];
    ConsoleLog [JS.VObject result];
    Sleep 1000 ].

(** [passes] more iterations of [while (true)], the next one being
    iteration [i]. *)
Fixpoint loop (world : World) (tokenAddress : string) (passes : nat) (i : nat)
    (log : list Event) : Run :=
  match passes with
  | O => Looping i log
  | S passes' =>
      match Dlmm.getRealtimeSwapPrice (envAt world i) tokenAddress with
      | (Returns result, evs) =>
          loop world tokenAddress passes' (S i)
               (log ++ evs ++ report (localeTimeAt world i) result)%list
      | (Throws e, evs) => Exited i e (log ++ evs ++ [caught e])%list
      | (Pending, evs) => Stalled i (log ++ evs)%list
      end
  end.

(** [main] on the line [answer] typed at the prompt. *)
Definition main (world : World) (answer : string) (passes : nat) : Run :=
  let tokenAddressInput := JS.trim answer in
  if String.eqb tokenAddressInput ""
  then NoInput [ConsoleError [JS.VString "No token address provided. Exiting."]]
  else
    let log := [ConsoleLog [JS.VString "Waiting for fetching data"]] in
    if PublicKey.isValid tokenAddressInput
    then loop world tokenAddressInput passes 0 log
    else Exited 0 (PublicKey.failure tokenAddressInput)
                (log ++ [caught (PublicKey.failure tokenAddressInput)])%list.

End PriceFinalMain.

(* ================================================================== *)
(** * Vocabulary of the further statements *)
(* ================================================================== *)

Module Cover.

Import Eff.
Local Open Scope string_scope.

(** The pages the index serves to one query before the paging loop stops:
    every reply up to the first one that is empty or fails, within the step
    budget. *)
Fixpoint servedPages (tokenAddress : string) (env : Dammv2.Env) (fuel : nat)
    (field : string) (offset : nat) : list (list Dammv2.PoolData) :=
  match fuel with
  | O => []
  | S fuel' =>
      match Dammv2.fetchPage env field tokenAddress offset with
      | JS.Resolved (p :: page) =>
          (p :: page) :: servedPages tokenAddress env fuel' field (offset + 50)
      | _ => []
      end
  end.

(** Every pool served to the two queries, in the order the scan meets them. *)
Definition served (tokenAddress : string) (env : Dammv2.Env) (fuel : nat)
  : list Dammv2.PoolData :=
  (List.concat (servedPages tokenAddress env fuel "token_a_mint" 0)
   ++ List.concat (servedPages tokenAddress env fuel "token_b_mint" 0))%list.

(** The pool has the native mint on one side. *)
Definition hasNativeMint (p : Dammv2.PoolData) : Prop :=
  Dammv2.token_a_mint p = Constants.SOL_MINT
  \/ Dammv2.token_b_mint p = Constants.SOL_MINT.

(** A reply that stops the paging loop: an empty page or a failure. *)
Definition replyEnds (r : JS.Result (list Dammv2.PoolData)) : Prop :=
  match r with
  | JS.Resolved (_ :: _) => False
  | _ => True
  end.

(** Page number [n] of a query is empty or fails. *)
Definition pageEnds (tokenAddress : string) (env : Dammv2.Env) (field : string)
    (n : nat) : Prop :=
  replyEnds (Dammv2.fetchPage env field tokenAddress (50 * n)).

(** [seenPoolIds] lists the addresses of [matchedPools], each once. *)
Definition scanInvariant (st : list Dammv2.PoolData * list string) : Prop :=
  map Dammv2.pool_address (fst st) = snd st /\ NoDup (snd st).

(** [q] is the first pool of [l] with its address among those that hold the
    native mint. *)
Definition firstWithAddress (l : list Dammv2.PoolData) (q : Dammv2.PoolData) : Prop :=
  exists l1 l2,
    l = (l1 ++ q :: l2)%list
    /\ hasNativeMint q
    /\ forall x, In x l1 -> hasNativeMint x ->
                 Dammv2.pool_address x <> Dammv2.pool_address q.


Definition isHttpGet (e : Event) : bool :=
  match e with
  | HttpGet _ _ _ => true
  | _ => false
  end.


(** What a discovery does to the outside world: a request to the index or
    an error line. *)
Definition isDiscoveryEvent (e : Event) : bool :=
  match e with
  | HttpGet _ _ _ | ConsoleError _ => true
  | _ => false
  end.

(** The requests for the first [k] pages of one query. *)
Definition requests (field : string) (k : nat) : list Event :=
  map (fun i => HttpGet Constants.API_URL field (50 * i)) (seq 0 k).

Definition count (f : Event -> bool) (log : list Event) : nat :=
  List.length (filter f log).

(** The three records a DAMM v2 pass can return. *)
Definition noPoolFoundRecord : JS.Obj :=
  [("error", JS.VString "No SOL-token pool found.")].

Definition noStateRecord : JS.Obj :=
  [("error", JS.VString "Failed to fetch or parse valid pool state.")].

Definition quoteRecord (tokenAddress : string) (env : Dammv2.Env) (L : Dammv2.Locals)
  : JS.Obj :=
  [ ("pool_address", JS.VString (Dammv2.pool_address (Dammv2.pool L)));
    ("amount_out_for_1_SOL", JS.VString (BigNumber.toFixed 6 (Dammv2.amountOut L)));
    ("total_tvl",
     JS.VString (Dammv2.numberToFixed env (Dammv2.tvlValue (Dammv2.pool L)) 2));
    ("token_symbol",
     JS.ofOptString
       (if String.eqb tokenAddress (Dammv2.token_a_mint (Dammv2.pool L))
        then Dammv2.token_a_symbol (Dammv2.pool L)
        else Dammv2.token_b_symbol (Dammv2.pool L)));
    ("token_address", JS.VString tokenAddress) ].

(** The keys of a record, in order. *)
Definition keysOf (o : JS.Obj) : list string := map fst o.





(** The native mint is mint X of the pool, as the quoter tests it. *)
Definition solIsMintX (pool : Dlmm.PoolData) : bool :=
  String.eqb (JS.trim (JS.toLowerCase (Dlmm.mint_x pool)))
             (JS.toLowerCase Constants.SOL_MINT).

(** What stopped a pass that threw: an address of the pool record that is
    not a public key, or a rejected call. *)
Definition fatal (env : Dammv2.Env) (pool : Dammv2.PoolData) (reason : string) : Prop :=
  (exists address,
      In address [Dammv2.pool_address pool; Dammv2.token_a_mint pool;
                  Dammv2.token_b_mint pool]
      /\ PublicKey.isValid address = false
      /\ reason = PublicKey.failure address)
  \/ Dammv2.fetchPoolState env (Dammv2.pool_address pool) = JS.Rejected reason
  \/ (exists mint,
        In mint [Constants.SOL_MINT; Dammv2.token_a_mint pool; Dammv2.token_b_mint pool]
        /\ Dammv2.getMint env mint = JS.Rejected reason)
  \/ Dammv2.getEpochInfo env = JS.Rejected reason
  \/ Dammv2.getSlot env = JS.Rejected reason
  \/ (exists params,
        Dammv2.inAmount params = 1000000000%Z
        /\ Dammv2.inputTokenMint params = Constants.SOL_MINT
        /\ Dammv2.getQuote env params = JS.Rejected reason).

(** The quote record of the constant-product quoter for [pool], given the
    mint account of the output side and the quote. *)
Definition passRecord (tokenAddress : string) (env : Dammv2.Env)
    (pool : Dammv2.PoolData) (outputMint : Dammv2.Mint) (quote : Dammv2.Quote)
  : JS.Obj :=
  [ ("pool_address", JS.VString (Dammv2.pool_address pool));
    ("amount_out_for_1_SOL",
     JS.VString (BigNumber.toFixed 6
                   (Dammv2.normalized (Dammv2.swapOutAmount quote) outputMint)));
    ("total_tvl", JS.VString (Dammv2.numberToFixed env (Dammv2.tvlValue pool) 2));
    ("token_symbol",
     JS.ofOptString
       (if String.eqb tokenAddress (Dammv2.token_a_mint pool)
        then Dammv2.token_a_symbol pool
        else Dammv2.token_b_symbol pool));
    ("token_address", JS.VString tokenAddress) ].

(** The pass selected [pool] among the discovered pools, found a usable
    state for it, obtained [outputMint] as the mint account of the side that
    is not the native mint's, and [quote] as the quote for 10^9 base units of
    the native mint on that state. *)
Definition quoted (tokenAddress : string) (env : Dammv2.Env) (fuel : nat)
    (pool : Dammv2.PoolData) (outputMint : Dammv2.Mint) (quote : Dammv2.Quote)
  : Prop :=
  exists pools log state params,
    Dammv2.fetchSolTokenPools tokenAddress env fuel = (Returns pools, log)
    /\ Dammv2.findHighestTvlPool pools = Some pool
    /\ Spec.kept tokenAddress env pool
    /\ Dammv2.fetchPoolState env (Dammv2.pool_address pool) = JS.Resolved (Some state)
    /\ Dammv2.keys state <> []
    /\ Dammv2.getMint env
         (if String.eqb (Dammv2.token_a_mint pool) Constants.SOL_MINT
          then Dammv2.token_b_mint pool else Dammv2.token_a_mint pool)
       = JS.Resolved outputMint
    /\ Dammv2.getQuote env params = JS.Resolved quote
    /\ Dammv2.inAmount params = 1000000000%Z
    /\ Dammv2.inputTokenMint params = Constants.SOL_MINT
    /\ Dammv2.poolState params = state.

(** The pass found no usable state for the pool it selected. *)
Definition stateless (tokenAddress : string) (env : Dammv2.Env) (fuel : nat) : Prop :=
  exists pools log pool reply,
    Dammv2.fetchSolTokenPools tokenAddress env fuel = (Returns pools, log)
    /\ Dammv2.findHighestTvlPool pools = Some pool
    /\ Dammv2.fetchPoolState env (Dammv2.pool_address pool) = JS.Resolved reply
    /\ Dammv2.stateUnavailable reply = true.

(** The text holds ASCII characters only. *)
Definition asciiText (s : string) : bool :=
  forallb (fun c => (nat_of_ascii c <? 128)%nat) (list_ascii_of_string s).

(** The environment [env] with another [getPriceFromSqrtPrice]. *)
Definition withPrice (env : Dammv2.Env) (price : Z -> nat -> nat -> Q) : Dammv2.Env :=
  {| Dammv2.fetchPage := Dammv2.fetchPage env;
     Dammv2.fetchPoolState := Dammv2.fetchPoolState env;
     Dammv2.getMint := Dammv2.getMint env;
     Dammv2.getEpochInfo := Dammv2.getEpochInfo env;
     Dammv2.getSlot := Dammv2.getSlot env;
     Dammv2.getQuote := Dammv2.getQuote env;
     Dammv2.getPriceFromSqrtPrice := price;
     Dammv2.dateNow := Dammv2.dateNow env;
     Dammv2.numberToFixed := Dammv2.numberToFixed env |}.




(** The file system a driver holds. *)
Definition fsOf (d : Index.Driver) : Dammv2.FileSystem :=
  match d with
  | Index.Looping _ fs _ | Index.Exited _ _ fs _ | Index.Stalled _ fs _ => fs
  end.

Definition logOf (d : Index.Driver) : list Event :=
  match d with
  | Index.Looping _ _ log | Index.Exited _ _ _ log | Index.Stalled _ _ log => log
  end.

(** The entry of a quote record in the log file, as it reads back: the
    symbol is left out when the pool record has none for the tracked side. *)
Definition quoteEntry (isoNow poolAddress price tvl : string) (symbol : option string)
    (tokenAddress : string) : JS.Value :=
  JS.VObject
    ([ ("timestamp", JS.VString isoNow);
       ("Pool address", JS.VString poolAddress);
       ("Price", JS.VString price);
       ("TVL", JS.VString tvl) ]
     ++ match symbol with
        | Some s => [("Symbol name", JS.VString s)]
        | None => []
        end
     ++ [("MintB", JS.VString tokenAddress)])%list.

Definition errorEntry (isoNow message : string) : JS.Value :=
  JS.VObject [("timestamp", JS.VString isoNow); ("error", JS.VString message)].

End Cover.

Module Cases.   (* further concrete inputs *)

Import Eff.
Local Open Scope string_scope.

(** A second record with the address of [Examples.solUsdcPool]. *)
Definition solUsdcPoolAgain : Dammv2.PoolData :=
  Examples.dammPool Examples.POOL_1 Constants.SOL_MINT Examples.USDC (Some "7").

(** An index whose two queries overlap: each serves one page, and the pool
    at [Examples.POOL_1] comes three times. *)
Definition twiceServedEnv : Dammv2.Env :=
  {| Dammv2.fetchPage := fun field _ offset =>
       if Nat.eqb offset 0
       then if String.eqb field "token_a_mint"
            then JS.Resolved [Examples.solUsdcPool; solUsdcPoolAgain]
            else JS.Resolved [solUsdcPoolAgain; Examples.usdcSolPool]
       else JS.Resolved [];
     Dammv2.fetchPoolState := Dammv2.fetchPoolState Examples.sideAEnv;
     Dammv2.getMint := Dammv2.getMint Examples.sideAEnv;
     Dammv2.getEpochInfo := Dammv2.getEpochInfo Examples.sideAEnv;
     Dammv2.getSlot := Dammv2.getSlot Examples.sideAEnv;
     Dammv2.getQuote := Dammv2.getQuote Examples.sideAEnv;
     Dammv2.getPriceFromSqrtPrice := Dammv2.getPriceFromSqrtPrice Examples.sideAEnv;
     Dammv2.dateNow := Dammv2.dateNow Examples.sideAEnv;
     Dammv2.numberToFixed := Dammv2.numberToFixed Examples.sideAEnv |}.

(** The tracked token is side A of the only pool, whose raw price is
    1/200, while the quote gives 150 tokens for 1 SOL. *)
Definition skewedEnv : Dammv2.Env :=
  Examples.envServing [Examples.usdcSolPool]
    (JS.Resolved (Some Examples.someState)) (1 # 200).

(** The index serves a pool record whose address is not base-58 text. *)
Definition badAddressEnv : Dammv2.Env :=
  Examples.envServing
    [Examples.dammPool "not-a-key" Constants.SOL_MINT Examples.USDC (Some "500")]
    (JS.Resolved (Some Examples.someState)) 150.







End Cases.

(* ================================================================== *)
(** * Properties *)
(* ================================================================== *)

Unset Implicit Arguments.

(* ================================================================== *)
(** * Order and subtraction of binary64 values *)
(* ================================================================== *)

Module FloatFacts.

Import Spec.
Local Open Scope Z_scope.

(** A positive number of [d] binary digits lies in [[2^(d-1), 2^d)]. *)
Lemma digits2_pos_upper (m : positive) : Zpos m < 2 ^ Zpos (digits2_pos m).
Proof.
  induction m as [m IH|m IH|]; cbn [digits2_pos].
  - rewrite Pos2Z.inj_succ, Z.pow_succ_r by lia. lia.
  - rewrite Pos2Z.inj_succ, Z.pow_succ_r by lia. lia.
  - reflexivity.
Qed.

Lemma digits2_pos_lower (m : positive) : 2 ^ (Zpos (digits2_pos m) - 1) <= Zpos m.
Proof.
  induction m as [m IH|m IH|]; cbn [digits2_pos].
  - rewrite Pos2Z.inj_succ.
    replace (Z.succ (Zpos (digits2_pos m)) - 1)
      with (Z.succ (Zpos (digits2_pos m) - 1)) by lia.
    rewrite Z.pow_succ_r by lia. lia.
  - rewrite Pos2Z.inj_succ.
    replace (Z.succ (Zpos (digits2_pos m)) - 1)
      with (Z.succ (Zpos (digits2_pos m) - 1)) by lia.
    rewrite Z.pow_succ_r by lia. lia.
  - reflexivity.
Qed.

(** A valid binary64 mantissa has 53 digits, or fewer at the least exponent. *)
Lemma valid_finite_inv s m e :
  valid_binary (S754_finite s m e) = true ->
  -1074 <= e <= 971
  /\ Zpos (digits2_pos m) <= 53
  /\ (-1074 < e -> Zpos (digits2_pos m) = 53).
Proof.
  unfold SpecFloat.valid_binary, bounded, canonical_mantissa, fexp,
    SpecFloat.emin, prec, emax.
  rewrite andb_true_iff, Z.eqb_eq, Z.leb_le. lia.
Qed.

(** Among valid magnitudes the greater exponent wins. *)
Lemma scaled_lt m1 e1 m2 e2 :
  Zpos (digits2_pos m1) <= 53 -> Zpos (digits2_pos m2) = 53 ->
  -1074 <= e1 < e2 ->
  Zpos m1 * 2 ^ (e1 + 1074) < Zpos m2 * 2 ^ (e2 + 1074).
Proof.
  intros H1 H2 He.
  pose proof (digits2_pos_upper m1) as U.
  pose proof (digits2_pos_lower m2) as L. rewrite H2 in L.
  assert (U' : Zpos m1 < 2 ^ 53).
  { eapply Z.lt_le_trans; [exact U|]. apply Z.pow_le_mono_r; lia. }
  replace (e2 + 1074) with ((e1 + 1074) + (e2 - e1)) by lia.
  rewrite (Z.pow_add_r 2 (e1 + 1074) (e2 - e1)) by lia.
  assert (P : 0 < 2 ^ (e1 + 1074)) by (apply Z.pow_pos_nonneg; lia).
  assert (K : 2 ^ 1 <= 2 ^ (e2 - e1)) by (apply Z.pow_le_mono_r; lia).
  change (2 ^ 1) with 2 in K. change (2 ^ (53 - 1)) with 4503599627370496 in L.
  change (2 ^ 53) with 9007199254740992 in U'.
  set (P2 := 2 ^ (e1 + 1074)) in *. set (K2 := 2 ^ (e2 - e1)) in *.
  assert (M : 9007199254740992 <= Zpos m2 * K2) by nia.
  rewrite (Z.mul_comm P2 K2), Z.mul_assoc.
  apply Z.mul_lt_mono_pos_r; lia.
Qed.

(** The lexicographic comparison of [SFcompare] is the comparison of the
    magnitudes. *)
Lemma mag_compare m1 e1 m2 e2 :
  valid_binary (S754_finite false m1 e1) = true ->
  valid_binary (S754_finite false m2 e2) = true ->
  match e1 ?= e2 with
  | Lt => Lt | Gt => Gt | Eq => Pos.compare_cont Eq m1 m2
  end = (Zpos m1 * 2 ^ (e1 + 1074) ?= Zpos m2 * 2 ^ (e2 + 1074)).
Proof.
  intros V1 V2.
  apply valid_finite_inv in V1, V2.
  destruct V1 as (B1 & D1 & N1), V2 as (B2 & D2 & N2).
  destruct (Z.compare_spec e1 e2) as [E|E|E].
  - subst e2. change (Pos.compare_cont Eq m1 m2) with (Zpos m1 ?= Zpos m2).
    apply Zmult_compare_compat_r. apply Z.lt_gt, Z.pow_pos_nonneg; lia.
  - symmetry. apply Z.compare_lt_iff. apply scaled_lt; lia.
  - symmetry. apply Z.compare_gt_iff. apply scaled_lt; lia.
Qed.

(** Every finite magnitude lies strictly between zero and the infinities. *)
Lemma mag_bounds s m e :
  valid_binary (S754_finite s m e) = true ->
  0 < Zpos m * 2 ^ (e + 1074) < beyond.
Proof.
  intros V. apply valid_finite_inv in V. destruct V as (B & D & _).
  pose proof (digits2_pos_upper m) as U.
  assert (U' : Zpos m < 2 ^ 53).
  { eapply Z.lt_le_trans; [exact U|]. apply Z.pow_le_mono_r; lia. }
  assert (P : 0 < 2 ^ (e + 1074)) by (apply Z.pow_pos_nonneg; lia).
  assert (Q : 2 ^ (e + 1074) < 2 ^ 2947) by (apply Z.pow_lt_mono_r; lia).
  split; [apply Z.mul_pos_pos; [apply Pos2Z.is_pos|exact P]|].
  unfold beyond. change 3000 with (53 + 2947).
  rewrite (Z.pow_add_r 2 53 2947) by lia.
  apply Z.mul_lt_mono_nonneg;
    [apply Pos2Z.is_nonneg|exact U'|apply Z.lt_le_incl, P|exact Q].
Qed.

Ltac cmp_by_lia :=
  cbn [cond_Zopp]; f_equal; symmetry;
  first [ apply Z.compare_eq_iff; lia
        | apply Z.compare_lt_iff; lia
        | apply Z.compare_gt_iff; lia ].

(** On valid values other than NaN, [SFcompare] compares the ranks. *)
Lemma SFcompare_rk x y :
  valid_binary x = true -> valid_binary y = true ->
  x <> S754_nan -> y <> S754_nan ->
  SFcompare x y = Some (rk x ?= rk y).
Proof.
  intros Vx Vy Nx Ny.
  assert (P3000 : 0 < beyond) by (apply Z.pow_pos_nonneg; lia).
  destruct x as [sx|sx| |sx mx ex], y as [sy|sy| |sy my ey]; try congruence;
    try (pose proof (mag_bounds _ _ _ Vx) as Bx);
    try (pose proof (mag_bounds _ _ _ Vy) as By);
    cbn [SFcompare rk].
  1-8: try destruct sx; try destruct sy; try reflexivity; cmp_by_lia.
  destruct sx, sy; cbn [cond_Zopp]; f_equal.
  - rewrite Z.compare_opp.
    rewrite <- (mag_compare my ey mx ex) by assumption.
    rewrite (Z.compare_antisym ey ex).
    destruct (ey ?= ex); cbn; try reflexivity.
    change (Pos.compare_cont Eq mx my) with (mx ?= my)%positive.
    change (Pos.compare_cont Eq my mx) with (my ?= mx)%positive.
    apply eq_sym, Pos.compare_antisym.
  - symmetry; apply Z.compare_lt_iff; lia.
  - symmetry; apply Z.compare_gt_iff; lia.
  - apply mag_compare; assumption.
Qed.

(** A right shift of a non-negative mantissa halves it. *)
Lemma shr_1_m mrs : 0 <= shr_m mrs -> shr_m (shr_1 mrs) = shr_m mrs / 2.
Proof.
  destruct mrs as [m r s]; cbn [shr_m shr_1]; intros H.
  destruct m as [|p|p]; [reflexivity| |lia].
  destruct p as [p|p|]; cbn [shr_m].
  - rewrite Pos2Z.inj_xI. apply Z.div_unique with (r := 1); lia.
  - rewrite Pos2Z.inj_xO. apply Z.div_unique with (r := 0); lia.
  - reflexivity.
Qed.

Lemma pow2_xO p : 2 ^ Zpos p~0 = 2 ^ Zpos p * 2 ^ Zpos p.
Proof. rewrite <- Z.pow_add_r by lia. f_equal. lia. Qed.

Lemma pow2_xI p : 2 ^ Zpos p~1 = 2 * (2 ^ Zpos p * 2 ^ Zpos p).
Proof.
  rewrite <- Z.pow_add_r by lia.
  replace (Zpos p~1) with (Z.succ (Zpos p + Zpos p)) by lia.
  apply Z.pow_succ_r. lia.
Qed.

Lemma shr_iter_m p : forall mrs,
  0 <= shr_m mrs -> shr_m (iter_pos shr_1 p mrs) = shr_m mrs / 2 ^ Zpos p.
Proof.
  induction p as [p IH|p IH|]; intros mrs H; cbn [iter_pos].
  - assert (P : 0 < 2 ^ Zpos p) by (apply Z.pow_pos_nonneg; lia).
    assert (H1 : 0 <= shr_m (shr_1 mrs)) by (rewrite shr_1_m by lia; apply Z.div_pos; lia).
    assert (H2 : 0 <= shr_m (iter_pos shr_1 p (shr_1 mrs))).
    { rewrite IH by lia. apply Z.div_pos; lia. }
    rewrite IH, IH, shr_1_m by lia.
    rewrite !Z.div_div by lia. rewrite pow2_xI. f_equal. 
  - assert (P : 0 < 2 ^ Zpos p) by (apply Z.pow_pos_nonneg; lia).
    assert (H2 : 0 <= shr_m (iter_pos shr_1 p mrs)).
    { rewrite IH by lia. apply Z.div_pos; lia. }
    rewrite IH, IH by lia.
    rewrite !Z.div_div by lia. rewrite pow2_xO. reflexivity.
  - rewrite shr_1_m by lia. reflexivity.
Qed.

Lemma shr_record_of_loc_m m l : shr_m (shr_record_of_loc m l) = m.
Proof. destruct l as [|[ | | ]]; reflexivity. Qed.

(** Above the least exponent a positive mantissa is never shifted to zero. *)
Lemma shr_fexp_pos m e l :
  0 < m -> -1074 <= e ->
  0 < shr_m (fst (shr_fexp prec emax m e l)) /\ -1074 <= snd (shr_fexp prec emax m e l).
Proof.
  intros Hm He. unfold shr_fexp, shr.
  destruct m as [|p|p]; try lia. cbn [Zdigits2].
  destruct (fexp prec emax (Zpos (digits2_pos p) + e) - e) as [|n|n] eqn:E;
    cbn [fst snd]; rewrite ?shr_record_of_loc_m; try lia.
  unfold fexp, SpecFloat.emin, prec, emax in E.
  rewrite shr_iter_m by (rewrite shr_record_of_loc_m; lia).
  rewrite shr_record_of_loc_m. split; [|lia].
  apply Z.div_str_pos. split; [apply Z.pow_pos_nonneg; lia|].
  eapply Z.le_trans; [|apply digits2_pos_lower].
  apply Z.pow_le_mono_r; lia.
Qed.

Lemma round_nearest_even_pos m l : 0 < m -> 0 < round_nearest_even m l.
Proof. intros H. destruct l as [|[ | | ]]; cbn; try lia. destruct (Z.even m); lia. Qed.

(** Rounding a nonzero value keeps its sign and never yields zero or NaN. *)
Lemma binary_round_aux_sign s m e l :
  0 < m -> -1074 <= e -> has_sign s (binary_round_aux prec emax s m e l).
Proof.
  intros Hm He. unfold binary_round_aux.
  pose proof (shr_fexp_pos m e l Hm He) as [A1 A2].
  destruct (shr_fexp prec emax m e l) as [r1 e1]. cbn [fst snd] in A1, A2.
  pose proof (round_nearest_even_pos _ (loc_of_shr_record r1) A1) as B.
  pose proof (shr_fexp_pos _ e1 loc_Exact B A2) as [C1 C2].
  destruct (shr_fexp prec emax _ e1 loc_Exact) as [r2 e2]. cbn [fst snd] in C1, C2.
  destruct (shr_m r2) as [|q|q]; try lia.
  destruct (e2 <=? emax - prec); reflexivity.
Qed.

Lemma binary_round_sign s m e :
  -1074 <= e -> has_sign s (binary_round prec emax s m e).
Proof.
  intros He. unfold binary_round, shl_align.
  set (f := fexp prec emax (Zpos (digits2_pos m) + e)).
  assert (Hf : -1074 <= f) by (unfold f, fexp, SpecFloat.emin, prec, emax; lia).
  destruct (f - e) as [|d|d] eqn:E; apply binary_round_aux_sign; lia.
Qed.

(** Aligning to a smaller exponent keeps the value. *)
Lemma shl_align_value m e e' :
  e' <= e -> Zpos (fst (shl_align m e e')) = Zpos m * 2 ^ (e - e').
Proof.
  intros H. unfold shl_align.
  destruct (e' - e) as [|d|d] eqn:E; cbn [fst]; try lia.
  - replace (e - e') with 0 by lia. lia.
  - fold (shift_pos d m). rewrite shift_pos_correct, Z.pow_pos_fold.
    replace (e - e') with (Zpos d) by lia. lia.
Qed.

Lemma SFltb_rk x y :
  valid_binary x = true -> valid_binary y = true ->
  x <> S754_nan -> y <> S754_nan ->
  SFltb x y = (rk x <? rk y).
Proof.
  intros. unfold SFltb. rewrite SFcompare_rk by assumption.
  unfold Z.ltb. destruct (rk x ?= rk y); reflexivity.
Qed.

Lemma has_sign_ltb s r :
  has_sign s r ->
  SFltb (S754_zero false) r = negb s /\ SFltb r (S754_zero false) = s.
Proof.
  destruct r as [z|s'| |s' m e]; cbn [has_sign]; try contradiction;
    intros ->; destruct s; split; reflexivity.
Qed.

(** The exact difference of two finite values, before rounding, in units of
    [2^ez]. *)
Lemma finite_sub_rk sx mx ex sy my ey :
  valid_binary (S754_finite sx mx ex) = true ->
  valid_binary (S754_finite sy my ey) = true ->
  let ez := Z.min ex ey in
  let d := cond_Zopp sx (Zpos (fst (shl_align mx ex ez)))
           - cond_Zopp sy (Zpos (fst (shl_align my ey ez))) in
  -1074 <= ez /\
  rk (S754_finite sx mx ex) - rk (S754_finite sy my ey) = d * 2 ^ (ez + 1074).
Proof.
  intros Vx Vy ez d.
  apply valid_finite_inv in Vx, Vy.
  split; [unfold ez; lia|].
  unfold d. rewrite !shl_align_value by (unfold ez; lia).
  cbn [rk].
  assert (Ex : 2 ^ (ex + 1074) = 2 ^ (ex - ez) * 2 ^ (ez + 1074)).
  { rewrite <- Z.pow_add_r by (unfold ez; lia). f_equal. lia. }
  assert (Ey : 2 ^ (ey + 1074) = 2 ^ (ey - ez) * 2 ^ (ez + 1074)).
  { rewrite <- Z.pow_add_r by (unfold ez; lia). f_equal. lia. }
  rewrite Ex, Ey.
  destruct sx, sy; cbn [cond_Zopp]; ring.
Qed.

(** The sign of a binary64 difference is the outcome of the comparison:
    [x - y > 0] exactly when [y < x], and [x - y < 0] exactly when [x < y]. *)
Lemma SFsub_sign x y :
  valid_binary x = true -> valid_binary y = true ->
  x <> S754_nan -> y <> S754_nan ->
  SFltb (S754_zero false) (SF64sub x y) = SFltb y x /\
  SFltb (SF64sub x y) (S754_zero false) = SFltb x y.
Proof.
  intros Vx Vy Nx Ny.
  rewrite (SFltb_rk y x), (SFltb_rk x y) by assumption.
  assert (P3000 : 0 < beyond) by (apply Z.pow_pos_nonneg; lia).
  destruct x as [sx|sx| |sx mx ex], y as [sy|sy| |sy my ey]; try congruence;
    try (pose proof (mag_bounds _ _ _ Vx) as Bx);
    try (pose proof (mag_bounds _ _ _ Vy) as By).
  1-8: try destruct sx; try destruct sy; cbn [SF64sub SFsub negb rk cond_Zopp];
       split; (etransitivity; [reflexivity|]); symmetry;
       first [apply Z.ltb_lt; lia | apply Z.ltb_ge; lia].
  pose proof (finite_sub_rk sx mx ex sy my ey Vx Vy) as [Hz Hd].
  cbv zeta in Hd.
  unfold SF64sub, SFsub.
  set (ez := Z.min ex ey) in *.
  set (d := cond_Zopp sx _ - cond_Zopp sy _) in *.
  assert (P : 0 < 2 ^ (ez + 1074)) by (apply Z.pow_pos_nonneg; lia).
  unfold binary_normalize.
  destruct d as [|p|p] eqn:Ed.
  - split; (etransitivity; [reflexivity|]); symmetry; apply Z.ltb_ge; lia.
  - destruct (has_sign_ltb false _ (binary_round_sign false p ez Hz)) as [-> ->].
    split; symmetry; [apply Z.ltb_lt|apply Z.ltb_ge]; nia.
  - destruct (has_sign_ltb true _ (binary_round_sign true p ez Hz)) as [-> ->].
    split; symmetry; [apply Z.ltb_ge|apply Z.ltb_lt]; nia.
Qed.


Local Open Scope float_scope.

Lemma is_nan_spec (a : float) : is_nan a = false <-> Prim2SF a <> S754_nan.
Proof.
  unfold is_nan. rewrite eqb_spec.
  pose proof (Prim2SF_valid a) as V.
  destruct (Prim2SF a) as [s|s| |s m e] eqn:E.
  - split; [discriminate|reflexivity].
  - split; [discriminate|]. destruct s; reflexivity.
  - split; [discriminate|congruence].
  - split; [discriminate|]. intros _.
    unfold SFeqb. rewrite SFcompare_rk by (assumption || discriminate).
    rewrite Z.compare_refl. reflexivity.
Qed.

Lemma ltb_rk (a b : float) :
  is_nan a = false -> is_nan b = false ->
  (a <? b) = (rank a <? rank b)%Z.
Proof.
  intros Ha Hb. rewrite ltb_spec. unfold rank.
  apply SFltb_rk; auto using Prim2SF_valid; apply is_nan_spec; assumption.
Qed.

Lemma leb_rk (a b : float) :
  is_nan a = false -> is_nan b = false ->
  (a <=? b) = (rank a <=? rank b)%Z.
Proof.
  intros Ha Hb. rewrite leb_spec. unfold SFleb.
  rewrite SFcompare_rk by (auto using Prim2SF_valid; apply is_nan_spec; assumption).
  unfold rank, Z.leb. destruct (rk (Prim2SF a) ?= rk (Prim2SF b))%Z; reflexivity.
Qed.

(** The same on primitive floats, as a sort comparator uses it. *)
Lemma sub_pos_ltb (a b : float) :
  is_nan a = false -> is_nan b = false ->
  (0 <? a - b) = (b <? a) /\ (a - b <? 0) = (a <? b).
Proof.
  intros Ha Hb. rewrite !ltb_spec, sub_spec.
  apply SFsub_sign; auto using Prim2SF_valid; apply is_nan_spec; assumption.
Qed.

End FloatFacts.

(* ================================================================== *)
(** * The pool selectors *)
(* ================================================================== *)

Module SelectFacts.

Import Spec FloatFacts.
Local Open Scope float_scope.

Section FirstMaximum.

Context {A : Type} (key : A -> JS.number).

Lemma firstMaximum_In l r : firstMaximum key l r -> In r l.
Proof.
  intros (before & after & -> & _). apply in_or_app. right. left. reflexivity.
Qed.

Lemma firstMaximum_singleton x :
  JS.isNaN (key x) = false -> firstMaximum key [x] x.
Proof.
  intros N. exists [], []. split; [reflexivity|]. split.
  - intros q [<-|[]]. rewrite leb_rk by assumption. apply Z.leb_refl.
  - intros q [].
Qed.

(** The scan of [reduce] ends on the first maximum. *)
Lemma scan_firstMaximum rest : forall first,
  allNumeric key (first :: rest) ->
  firstMaximum key (first :: rest) (fold_left (keepGreater key) rest first).
Proof.
  induction rest as [|x rest IH] using rev_ind; intros first N.
  - apply firstMaximum_singleton. apply N. left. reflexivity.
  - rewrite fold_left_app. cbn [fold_left].
    assert (N' : allNumeric key (first :: rest)).
    { intros q Hq. apply N. rewrite app_comm_cons. apply in_or_app. left. exact Hq. }
    assert (Nx : JS.isNaN (key x) = false).
    { apply N. rewrite app_comm_cons. apply in_or_app. right. left. reflexivity. }
    specialize (IH first N').
    set (r := fold_left (keepGreater key) rest first) in *.
    assert (Nr : JS.isNaN (key r) = false) by (apply N', (firstMaximum_In _ _ IH)).
    destruct IH as (before & after & E & Hmax & Hbefore).
    unfold keepGreater at 1, JS.gt.
    destruct (key r <? key x) eqn:C.
    + rewrite ltb_rk in C by assumption. apply Z.ltb_lt in C.
      exists (first :: rest), []. split; [rewrite app_comm_cons; reflexivity|].
      assert (Hlt : forall q, In q (first :: rest) -> (rank (key q) <= rank (key r))%Z).
      { intros q Hq. specialize (Hmax q Hq).
        rewrite leb_rk in Hmax by (auto using N'). apply Z.leb_le. exact Hmax. }
      split.
      * intros q Hq. rewrite app_comm_cons in Hq. apply in_app_or in Hq.
        destruct Hq as [Hq|[<-|[]]].
        -- rewrite leb_rk by auto using N'. apply Z.leb_le. specialize (Hlt q Hq). lia.
        -- rewrite leb_rk by assumption. apply Z.leb_refl.
      * intros q Hq. rewrite ltb_rk by auto using N'. apply Z.ltb_lt.
        specialize (Hlt q Hq). lia.
    + rewrite ltb_rk in C by assumption. apply Z.ltb_ge in C.
      exists before, (after ++ [x])%list. split.
      { rewrite app_comm_cons, E, <- app_assoc. reflexivity. }
      split; [|exact Hbefore].
      intros q Hq. rewrite app_comm_cons in Hq. apply in_app_or in Hq.
      destruct Hq as [Hq|[<-|[]]]; [apply Hmax; exact Hq|].
      rewrite leb_rk by assumption. apply Z.leb_le. exact C.
Qed.

(** The head of the stable sort by descending key is the first maximum. *)
Lemma sort_head_firstMaximum l :
  l <> [] -> allNumeric key l ->
  exists r, hd_error (Dlmm.sort (byKeyDesc key) l) = Some r /\ firstMaximum key l r.
Proof.
  induction l as [|x l IH]; intros NE N; [congruence|].
  assert (Nx : JS.isNaN (key x) = false) by (apply N; left; reflexivity).
  destruct l as [|y l].
  - exists x. split; [reflexivity|]. apply firstMaximum_singleton. exact Nx.
  - assert (N' : allNumeric key (y :: l)) by (intros q Hq; apply N; right; exact Hq).
    destruct IH as (r & Hhd & HM); [discriminate|exact N'|].
    assert (Nr : JS.isNaN (key r) = false) by (apply N', (firstMaximum_In _ _ HM)).
    change (Dlmm.sort (byKeyDesc key) (x :: y :: l))
      with (Dlmm.insertSorted (byKeyDesc key) x (Dlmm.sort (byKeyDesc key) (y :: l))).
    destruct (Dlmm.sort (byKeyDesc key) (y :: l)) as [|r' t]; [discriminate|].
    cbn [hd_error] in Hhd. injection Hhd as ->.
    cbn [Dlmm.insertSorted]. unfold JS.gt, byKeyDesc at 1.
    destruct (sub_pos_ltb (key r) (key x) Nr Nx) as [-> _].
    destruct HM as (before & after & E & Hmax & Hbefore).
    destruct (key x <? key r) eqn:C; cbn [hd_error].
    + exists r. split; [reflexivity|].
      exists (x :: before), after. split; [rewrite E; reflexivity|].
      rewrite ltb_rk in C by assumption. apply Z.ltb_lt in C. split.
      * intros q [<-|Hq]; [|apply Hmax; exact Hq].
        rewrite leb_rk by assumption. apply Z.leb_le. lia.
      * intros q [<-|Hq]; [|apply Hbefore; exact Hq].
        rewrite ltb_rk by assumption. apply Z.ltb_lt. exact C.
    + exists x. split; [reflexivity|].
      exists [], (y :: l). split; [reflexivity|].
      rewrite ltb_rk in C by assumption. apply Z.ltb_ge in C. split.
      * intros q [<-|Hq].
        -- rewrite leb_rk by assumption. apply Z.leb_refl.
        -- specialize (Hmax q Hq). rewrite leb_rk in Hmax by auto using N'.
           apply Z.leb_le in Hmax. rewrite leb_rk by auto using N'.
           apply Z.leb_le. lia.
      * intros q [].
Qed.

End FirstMaximum.

End SelectFacts.

(* ================================================================== *)
(** * The effect monad *)
(* ================================================================== *)

Module EffFacts.

Import Eff.

Lemma bind_Returns {A B} (m : M A) (k : A -> M B) b log :
  bind m k = (Returns b, log) ->
  exists a l1 l2, m = (Returns a, l1) /\ k a = (Returns b, l2) /\ log = (l1 ++ l2)%list.
Proof.
  destruct m as [[a|e|] l1]; cbn [bind]; try discriminate.
  destruct (k a) as [o l2] eqn:E. intros [= -> <-].
  exists a, l1, l2. repeat split; assumption.
Qed.

End EffFacts.

(* ================================================================== *)
(** * Discovery *)
(* ================================================================== *)

Module DiscoveryFacts.

Import Eff EffFacts.
Local Open Scope string_scope.

Lemma includes_pair a b x :
  JS.includes [a; b] x = true <-> a = x \/ b = x.
Proof.
  unfold JS.includes. cbn [existsb]. rewrite !orb_true_iff, !String.eqb_eq.
  split; [intros [H|[H|H]]|intros [H|H]]; auto; discriminate.
Qed.

Section Dammv2.

Variable tokenAddress : string.
Variable env : Dammv2.Env.

Lemma keepPool_kept (Q : Dammv2.PoolData -> Prop) pools : forall st,
  (forall p, In p pools ->
     Dammv2.token_a_mint p = Constants.SOL_MINT
     \/ Dammv2.token_b_mint p = Constants.SOL_MINT -> Q p) ->
  Forall Q (fst st) ->
  Forall Q (fst (fold_left Dammv2.keepPool pools st)).
Proof.
  induction pools as [|p pools IH]; intros st HQ Hst; [exact Hst|].
  cbn [fold_left]. apply IH.
  - intros q Hq. apply HQ. right. exact Hq.
  - destruct st as [matched seen]. unfold Dammv2.keepPool.
    destruct (negb (JS.includes seen (Dammv2.pool_address p))
              && JS.includes [Dammv2.token_a_mint p; Dammv2.token_b_mint p]
                   Constants.SOL_MINT) eqn:E; [|exact Hst].
    apply andb_true_iff in E. destruct E as [_ E]. apply includes_pair in E.
    cbn [fst] in *. apply Forall_app. split; [exact Hst|].
    constructor; [|constructor]. apply HQ; [left; reflexivity|exact E].
Qed.

(** Paging only ever adds kept pools. *)
Lemma pageLoop_kept fuel : forall field offset st st' log,
  Dammv2.pageLoop tokenAddress env fuel field offset st = (Returns st', log) ->
  Forall (Spec.kept tokenAddress env) (fst st) ->
  Forall (Spec.kept tokenAddress env) (fst st').
Proof.
  induction fuel as [|fuel IH]; intros field offset st st' log H Hst;
    cbn [Dammv2.pageLoop] in H; [discriminate|].
  apply bind_Returns in H. destruct H as ([] & l1 & l2 & _ & H & _).
  destruct (Dammv2.fetchPage env field tokenAddress offset) as [page|e] eqn:F.
  - destruct page as [|p page].
    + injection H as <- _. exact Hst.
    + apply IH in H; [exact H|].
      apply keepPool_kept; [|exact Hst].
      intros q Hq Hsol. split; [exact Hsol|].
      exists field, offset, (p :: page). split; assumption.
  - apply bind_Returns in H. destruct H as ([] & l3 & l4 & _ & H & _).
    injection H as <- _. exact Hst.
Qed.

Lemma fetchSolTokenPools_kept fuel pools log :
  Dammv2.fetchSolTokenPools tokenAddress env fuel = (Returns pools, log) ->
  Forall (Spec.kept tokenAddress env) pools.
Proof.
  unfold Dammv2.fetchSolTokenPools. intros H.
  apply bind_Returns in H. destruct H as (st1 & l1 & l2 & H1 & H & _).
  apply bind_Returns in H. destruct H as (st2 & l3 & l4 & H2 & H & _).
  injection H as <- _.
  apply pageLoop_kept in H1; [|constructor].
  apply pageLoop_kept in H2; assumption.
Qed.

(** A failed page request ends the paging loop without an exception. *)
Lemma pageLoop_never_throws fuel : forall field offset st reason log,
  Dammv2.pageLoop tokenAddress env fuel field offset st <> (Throws reason, log).
Proof.
  induction fuel as [|fuel IH]; intros field offset st reason log;
    cbn [Dammv2.pageLoop]; [discriminate|].
  cbn [emit bind].
  destruct (Dammv2.fetchPage env field tokenAddress offset) as [[|p page]|e].
  - discriminate.
  - destruct (Dammv2.pageLoop _ _ _ _ _ _) as [[x|r|] l] eqn:E; try discriminate.
    exfalso. exact (IH _ _ _ _ _ E).
  - discriminate.
Qed.

Lemma fetchSolTokenPools_never_throws fuel reason log :
  Dammv2.fetchSolTokenPools tokenAddress env fuel <> (Throws reason, log).
Proof.
  unfold Dammv2.fetchSolTokenPools.
  destruct (Dammv2.pageLoop tokenAddress env fuel "token_a_mint" 0 ([], []))
    as [[st1|r|] l1] eqn:E1; cbn [bind]; try discriminate.
  - destruct (Dammv2.pageLoop tokenAddress env fuel "token_b_mint" 0 st1)
      as [[st2|r|] l2] eqn:E2; cbn [bind ret]; try discriminate.
    intros [= -> _]. exact (pageLoop_never_throws _ _ _ _ _ _ E2).
  - intros [= -> ->]. exact (pageLoop_never_throws _ _ _ _ _ _ E1).
Qed.

End Dammv2.

(** The bin-model discovery always returns: a failed request yields the
    empty list. *)
Lemma dlmm_fetchSolTokenPools_returns env token :
  exists log,
    Dlmm.fetchSolTokenPools env token
    = (Returns (match Dlmm.fetchAll env with
                | JS.Resolved allPools => filter (Dlmm.usable token) allPools
                | JS.Rejected _ => []
                end), log).
Proof.
  unfold Dlmm.fetchSolTokenPools, await.
  destruct (Dlmm.fetchAll env) as [allPools|e]; cbn; eexists; reflexivity.
Qed.

End DiscoveryFacts.

(* ================================================================== *)
(** * One pass of the constant-product quoter *)
(* ================================================================== *)

Module PassFacts.

Import Eff EffFacts DiscoveryFacts.
Local Open Scope string_scope.

Lemma newPublicKey_Returns s k log :
  newPublicKey s = (Returns k, log) ->
  k = s /\ log = [] /\ PublicKey.isValid s = true.
Proof.
  unfold newPublicKey. destruct (PublicKey.isValid s); [|discriminate].
  intros [= <- <-]. repeat split.
Qed.

Lemma await_Returns {A} e (r : JS.Result A) a log :
  await e r = (Returns a, log) -> r = JS.Resolved a /\ log = [e].
Proof.
  unfold await. destruct r as [x|x]; cbn; [|discriminate].
  intros [= <- <-]. split; reflexivity.
Qed.

Lemma promiseAll2_Returns {A B} (p : JS.Result A) (q : JS.Result B) a b log :
  promiseAll2 p q = (Returns (a, b), log) ->
  p = JS.Resolved a /\ q = JS.Resolved b /\ log = [].
Proof.
  unfold promiseAll2. destruct p as [x|x], q as [y|y]; cbn; try discriminate.
  intros [= <- <- <-]. repeat split.
Qed.

(** Peel one [bind] off a hypothesis that the computation returned. *)
Ltac peel H x l :=
  let l1 := fresh "l" in
  let l2 := fresh "l" in
  let E := fresh "E" in
  let Hl := fresh "Hl" in
  apply bind_Returns in H; destruct H as (x & l1 & l2 & E & H & Hl).

Lemma findHighestTvlPool_In pools p :
  Dammv2.findHighestTvlPool pools = Some p -> In p pools.
Proof.
  destruct pools as [|first rest]; [discriminate|]. cbn [Dammv2.findHighestTvlPool].
  intros [= <-]. revert first.
  induction rest as [|x rest IH]; intros first; [left; reflexivity|].
  cbn [fold_left].
  destruct (JS.gt (Dammv2.tvlValue x) (Dammv2.tvlValue first)).
  - right. apply IH.
  - destruct (IH first) as [<-|H]; [left; reflexivity|right; right; exact H].
Qed.

Section Pass.

Variable tokenAddress : string.
Variable env : Dammv2.Env.

(** Inversion of a pass that reached its final [return]. *)
Lemma runPass_reached fuel record L log :
  Dammv2.runPass tokenAddress env fuel = (Returns (record, Some L), log) ->
  exists pools state params, Spec.Reached tokenAddress env fuel L pools state params.
Proof.
  unfold Dammv2.runPass. intros H.
  peel H pools l.
  destruct (Dammv2.findHighestTvlPool pools) as [pool|] eqn:Sel; [|discriminate].
  peel H poolKey l. apply newPublicKey_Returns in E0. destruct E0 as (-> & _ & _).
  peel H fetched l. apply await_Returns in E0. destruct E0 as (Hfetch & _).
  destruct (Dammv2.stateUnavailable fetched) eqn:U; [discriminate|].
  destruct fetched as [state|]; [|discriminate].
  peel H u1 l. clear E0.
  peel H otherKey l. apply newPublicKey_Returns in E0. destruct E0 as (-> & _ & _).
  peel H u2 l. clear E0.
  peel H mints l. destruct mints as [inputMint outputMint].
  apply promiseAll2_Returns in E0. destruct E0 as (Hin & Hout & _).
  peel H epochIn l. clear E0.
  peel H epochOut l. clear E0.
  peel H slot l. clear E0.
  peel H quote l. apply await_Returns in E0. destruct E0 as (Hquote & _).
  peel H keyA l. apply newPublicKey_Returns in E0. destruct E0 as (-> & _ & _).
  peel H u3 l. clear E0.
  peel H keyB l. apply newPublicKey_Returns in E0. destruct E0 as (-> & _ & _).
  peel H u4 l. clear E0.
  peel H mintsAB l. destruct mintsAB as [tokenAMint tokenBMint].
  apply promiseAll2_Returns in E0. destruct E0 as (HA & HB & _).
  injection H as _ <- _.
  match type of Hquote with
  | Dammv2.getQuote env ?p = _ => exists pools, state, p
  end.
  constructor; cbn; try reflexivity; try assumption.
  - eexists; eassumption.
  - unfold Dammv2.stateUnavailable in U. intros K. rewrite K in U. discriminate U.
Qed.

End Pass.

End PassFacts.

(* ================================================================== *)
(** * Rounding of BigNumber quotients *)
(* ================================================================== *)

Module BigNumberFacts.

Local Open Scope Z_scope.

Lemma pow10_pos (n : nat) : 0 < 10 ^ Z.of_nat n.
Proof. apply Z.pow_pos_nonneg; lia. Qed.

(** The scaled numerator is the integer nearest to [|q| * 10^dp]. *)
Lemma scaledHalfUp_nearest dp q :
  let k := BigNumber.scaledHalfUp dp q in
  let n := Z.abs (Qnum q) * 10 ^ Z.of_nat dp in
  let d := Zpos (Qden q) in
  2 * Z.abs (k * d - n) <= d /\ 0 <= k.
Proof.
  intros k n d. unfold k, BigNumber.scaledHalfUp. fold n. fold d.
  assert (Hd : 0 < 2 * d) by (unfold d; lia).
  pose proof (Z.mul_div_le (2 * n + d) (2 * d) Hd) as L.
  pose proof (Z.mul_succ_div_gt (2 * n + d) (2 * d) Hd) as U.
  assert (Hn : 0 <= n).
  { unfold n. pose proof (pow10_pos dp). apply Z.mul_nonneg_nonneg; lia. }
  assert (K : 0 <= (2 * n + d) / (2 * d)) by (apply Z.div_pos; lia).
  split; [|exact K]. lia.
Qed.

Local Open Scope Q_scope.

(** The error of rounding half up to [dp] places is at most half a unit of
    the last place. *)
Lemma roundHalfUp_error dp q :
  Qabs (BigNumber.roundHalfUp dp q - q) <= 1 # (2 * Z.to_pos (10 ^ Z.of_nat dp)).
Proof.
  pose proof (scaledHalfUp_nearest dp q) as [N K]. cbv zeta in N.
  unfold BigNumber.roundHalfUp.
  set (k := BigNumber.scaledHalfUp dp q) in *.
  pose proof (pow10_pos dp) as P.
  destruct (10 ^ Z.of_nat dp)%Z as [|s|s] eqn:Es; try lia.
  destruct q as [n d]. cbn [Qnum Qden] in *.
  unfold Qle, Qabs, Qminus, Qplus, Qopp, Qdiv, Qmult, Qinv, inject_Z.
  cbn [Qnum Qden Z.to_pos].
  rewrite !Z.mul_1_r. cbn [Pos.mul].
  rewrite Z.mul_1_l.
  rewrite !Pos2Z.inj_mul.
  destruct n as [|n|n]; cbn [Z.sgn Z.abs] in *.
  - assert (k = 0%Z) by nia. subst k. rewrite H. cbn. lia.
  - replace (1 * k * Zpos d + - Zpos n * Zpos s)%Z
      with (k * Zpos d - Zpos n * Zpos s)%Z by lia.
    nia.
  - replace (-1 * k * Zpos d + - Zneg n * Zpos s)%Z
      with (- (k * Zpos d - Zpos n * Zpos s))%Z by lia.
    rewrite Z.abs_opp. nia.
Qed.

(** A reciprocal computed by [dividedBy] is within half a unit of the 20th
    decimal place of the exact one. *)
Lemma reciprocal_error (r : Q) :
  ~ r == 0 ->
  exists p,
    BigNumber.dividedBy (BigNumber.Fin 1) (BigNumber.Fin r) = BigNumber.Fin p
    /\ Qabs (p - 1 / r) <= 1 # 200000000000000000000.
Proof.
  intros Hr. unfold BigNumber.dividedBy.
  destruct (Qeq_bool r 0) eqn:E; [apply Qeq_bool_iff in E; contradiction|].
  eexists. split; [reflexivity|].
  exact (roundHalfUp_error BigNumber.DECIMAL_PLACES (1 / r)).
Qed.

End BigNumberFacts.

(* ================================================================== *)
(** * Persistence *)
(* ================================================================== *)

Module PersistFacts.

Import Eff Spec.
Local Open Scope string_scope.









Section OneFile.

Variable filename : string.

Lemma writeFile_same st fs : Dammv2.files (Dammv2.writeFile filename st fs) filename = st.
Proof. cbn. rewrite String.eqb_refl. reflexivity. Qed.

(** One call on a writable path: the array read back is the old one,
    re-serialised, with the new entry at its end. *)
Lemma save_appends result isoNow fs :
  Dammv2.writable fs filename = true ->
  exists fs',
    Dammv2.saveFormattedResultToJson result filename isoNow fs = (Returns tt, fs')
    /\ Dammv2.writable fs' filename = true
    /\ Dammv2.files fs' filename
       = Dammv2.Text (Some (JS.VArray
           (map JS.jsonRoundTrip (Dammv2.loadArray (Dammv2.files fs filename))
            ++ [storedEntry (result, isoNow)])%list)).
Proof.
  intros W. unfold Dammv2.saveFormattedResultToJson. rewrite W.
  eexists. split; [reflexivity|]. split; [exact W|].
  rewrite writeFile_same. cbn [JS.jsonRoundTrip]. rewrite map_app. reflexivity.
Qed.


End OneFile.

End PersistFacts.

(* ================================================================== *)
(** * Pool selection (PoolSelector) *)
(* ================================================================== *)

Module SelectorClaims.

Import Eff Spec FloatFacts SelectFacts DiscoveryFacts.
Local Open Scope string_scope.

Lemma positive_is_numeric (x : JS.number) : JS.gt x 0%float = true -> JS.isNaN x = false.
Proof.
  unfold JS.gt, JS.isNaN. rewrite ltb_spec. intros H.
  apply is_nan_spec. intros E. rewrite E in H.
  destruct (Prim2SF 0%float); discriminate H.
Qed.

Lemma usable_numeric token pools :
  allNumeric Dlmm.liquidityValue (filter (Dlmm.usable token) pools).
Proof.
  intros q Hq. apply filter_In in Hq. destruct Hq as [_ U].
  unfold Dlmm.usable in U. rewrite !andb_true_iff in U.
  destruct U as [[_ L] _]. apply positive_is_numeric. exact L.
Qed.

Lemma findHighestLiquidityPool_first pools :
  pools <> [] -> allNumeric Dlmm.liquidityValue pools ->
  exists r,
    Dlmm.findHighestLiquidityPool pools = Some r
    /\ firstMaximum Dlmm.liquidityValue pools r.
Proof.
  intros NE N.
  destruct (sort_head_firstMaximum Dlmm.liquidityValue pools NE N) as (r & H & F).
  exists r. split; [|exact F].
  destruct pools; [congruence|]. exact H.
Qed.

(** C2, amended.  On a non-empty list none of whose liquidity texts parses
    to NaN, both selectors return the first pool of greatest parsed
    liquidity: no pool of the list exceeds it and every pool before it is
    strictly smaller (a tie keeps the earlier pool).  The lists the
    bin-model discovery produces are always of that kind.  On the empty list
    both return nothing. *)
Theorem selectors_return_first_maximum :
  (forall pools,
      pools <> [] -> allNumeric Dammv2.tvlValue pools ->
      exists r,
        Dammv2.findHighestTvlPool pools = Some r
        /\ firstMaximum Dammv2.tvlValue pools r)
  /\ (forall pools,
      pools <> [] -> allNumeric Dlmm.liquidityValue pools ->
      exists r,
        Dlmm.findHighestLiquidityPool pools = Some r
        /\ firstMaximum Dlmm.liquidityValue pools r)
  /\ (forall env token pools log,
      Dlmm.fetchSolTokenPools env token = (Returns pools, log) ->
      pools <> [] ->
      exists r,
        Dlmm.findHighestLiquidityPool pools = Some r
        /\ firstMaximum Dlmm.liquidityValue pools r)
  /\ Dammv2.findHighestTvlPool [] = None
  /\ Dlmm.findHighestLiquidityPool [] = None.
Proof.
  split; [|split; [|split; [|split; reflexivity]]].
  - intros [|first rest] NE N; [congruence|].
    eexists. split; [reflexivity|].
    exact (scan_firstMaximum Dammv2.tvlValue rest first N).
  - exact findHighestLiquidityPool_first.
  - intros env token pools log H NE.
    apply findHighestLiquidityPool_first; [exact NE|].
    destruct (dlmm_fetchSolTokenPools_returns env token) as (log' & E).
    rewrite E in H. injection H as <- _.
    destruct (Dlmm.fetchAll env); [apply usable_numeric|intros q []].
Qed.

Lemma tiedPools_numeric : allNumeric Dammv2.tvlValue Examples.tiedPools.
Proof.
  intros q [<-|[<-|[<-|[]]]]; vm_compute; reflexivity.
Qed.

Lemma selectors_return_first_maximum_witness :
  exists r,
    Dammv2.findHighestTvlPool Examples.tiedPools = Some r
    /\ firstMaximum Dammv2.tvlValue Examples.tiedPools r.
Proof.
  apply (proj1 selectors_return_first_maximum).
  - discriminate.
  - exact tiedPools_numeric.
Defined.

(** C2 as stated fails on a list whose first liquidity text is not a
    number: the scan keeps that pool, although the other pool is worth 5 and
    its own value is NaN. *)
Lemma findHighestTvlPool_keeps_leading_NaN :
  Dammv2.findHighestTvlPool [Examples.unpricedPool; Examples.fivePool]
  = Some Examples.unpricedPool
  /\ JS.isNaN (Dammv2.tvlValue Examples.unpricedPool) = true
  /\ Dammv2.tvlValue Examples.fivePool = 5%float
  /\ (Dammv2.tvlValue Examples.fivePool
      <=? Dammv2.tvlValue Examples.unpricedPool)%float = false
  /\ ~ firstMaximum Dammv2.tvlValue [Examples.unpricedPool; Examples.fivePool]
         Examples.unpricedPool.
Proof.
  split; [vm_compute; reflexivity|].
  split; [vm_compute; reflexivity|].
  split; [vm_compute; reflexivity|].
  split; [vm_compute; reflexivity|].
  intros (before & after & _ & Hmax & _).
  specialize (Hmax Examples.fivePool (or_intror (or_introl eq_refl))).
  vm_compute in Hmax. discriminate Hmax.
Qed.

End SelectorClaims.

(* ================================================================== *)
(** * Discovery (PoolIndexClient) *)
(* ================================================================== *)

Module DiscoveryClaims.

Import Eff Spec DiscoveryFacts.
Local Open Scope string_scope.

(** C3, amended.  Every pool in the result of the DAMM v2 discovery was
    served by the index in reply to a query on the target token and has the
    native mint as one of its two mint fields (the other field is not
    compared with the target); a served pool without the native mint is not
    in the result.  Every pool in the result of the bin-model discovery has,
    once both fields are lower-cased and trimmed, the lower-cased native mint
    on one side and the lower-cased, trimmed target on the other. *)
Theorem discovery_results_pair_native_mint :
  (forall token env fuel pools log,
      Dammv2.fetchSolTokenPools token env fuel = (Returns pools, log) ->
      forall p, In p pools -> kept token env p)
  /\ (forall env token pools log,
      Dlmm.fetchSolTokenPools env token = (Returns pools, log) ->
      forall p, In p pools ->
        let x := JS.trim (JS.toLowerCase (Dlmm.mint_x p)) in
        let y := JS.trim (JS.toLowerCase (Dlmm.mint_y p)) in
        let sol := JS.toLowerCase Constants.SOL_MINT in
        let target := JS.trim (JS.toLowerCase token) in
        (x = sol /\ y = target) \/ (y = sol /\ x = target)).
Proof.
  split.
  - intros token env fuel pools log H p Hp.
    apply fetchSolTokenPools_kept in H. rewrite Forall_forall in H. apply H, Hp.
  - intros env token pools log H p Hp x y sol target.
    destruct (dlmm_fetchSolTokenPools_returns env token) as (log' & E).
    rewrite E in H. injection H as <- _.
    destruct (Dlmm.fetchAll env) as [allPools|e]; [|destruct Hp].
    apply filter_In in Hp. destruct Hp as [_ U].
    unfold Dlmm.usable in U. rewrite !andb_true_iff in U.
    destruct U as [[U _] _]. unfold Dlmm.isSolToToken in U.
    rewrite orb_true_iff, !andb_true_iff, !String.eqb_eq in U. exact U.
Qed.

Lemma discovery_results_pair_native_mint_witness :
  kept Examples.USDC Examples.sideAEnv Examples.solUsdcPool.
Proof.
  apply (proj1 discovery_results_pair_native_mint Examples.USDC Examples.sideAEnv 2%nat
           [Examples.solUsdcPool]
           (events (Dammv2.fetchSolTokenPools Examples.USDC Examples.sideAEnv 2))).
  - vm_compute. reflexivity.
  - left. reflexivity.
Defined.

(** C3 as stated fails on both discoveries.  An index that answers the query
    on BONK with a SOL/USDC pool gets that pool into the result, although
    neither of its mints is BONK; and the bin-model discovery accepts a pair
    whose [mint_x] is the native mint written in lower case, which is not the
    native mint's address. *)
Lemma discovery_keeps_pool_without_target :
  outcome (Dammv2.fetchSolTokenPools Examples.BONK Examples.sideAEnv 2)
  = Returns [Examples.solUsdcPool]
  /\ Dammv2.token_a_mint Examples.solUsdcPool <> Examples.BONK
  /\ Dammv2.token_b_mint Examples.solUsdcPool <> Examples.BONK
  /\ outcome (Dlmm.fetchSolTokenPools
                (Examples.dlmmEnv (JS.Resolved [Examples.lowerCasePair])) Examples.USDC)
     = Returns [Examples.lowerCasePair]
  /\ Dlmm.mint_x Examples.lowerCasePair <> Constants.SOL_MINT
  /\ Dlmm.mint_y Examples.lowerCasePair <> Constants.SOL_MINT.
Proof.
  repeat split; try (vm_compute; reflexivity); discriminate.
Qed.

(** C10.  Every pool the bin-model discovery returns has a parsed liquidity
    above zero and both reserves above zero; a pool with no liquidity or an
    empty reserve is never in the result, whatever its mints. *)
Theorem bin_discovery_requires_liquidity_and_reserves :
  forall env token pools log,
    Dlmm.fetchSolTokenPools env token = (Returns pools, log) ->
    (forall p, In p pools ->
       JS.gt (Dlmm.liquidityValue p) 0%float = true
       /\ JS.gt (Dlmm.reserve_x_amount p) 0%float = true
       /\ JS.gt (Dlmm.reserve_y_amount p) 0%float = true)
    /\ (forall p, Dlmm.hasLiquidity p = false \/ Dlmm.hasReserves p = false ->
                  ~ In p pools)
    /\ (forall allPools, Dlmm.fetchAll env = JS.Resolved allPools ->
        forall p, In p pools <-> In p allPools /\ Dlmm.usable token p = true).
Proof.
  intros env token pools log H.
  destruct (dlmm_fetchSolTokenPools_returns env token) as (log' & E).
  rewrite E in H. injection H as <- _.
  assert (K : forall p,
             In p (match Dlmm.fetchAll env with
                   | JS.Resolved allPools => filter (Dlmm.usable token) allPools
                   | JS.Rejected _ => []
                   end) ->
             Dlmm.hasLiquidity p = true /\ Dlmm.hasReserves p = true).
  { intros p Hp. destruct (Dlmm.fetchAll env); [|destruct Hp].
    apply filter_In in Hp. destruct Hp as [_ U].
    unfold Dlmm.usable in U. rewrite !andb_true_iff in U. tauto. }
  split; [|split].
  - intros p Hp. destruct (K p Hp) as [L R].
    unfold Dlmm.hasReserves in R. rewrite andb_true_iff in R. tauto.
  - intros p Hz Hp. destruct (K p Hp) as [L R].
    destruct Hz as [Hz|Hz]; congruence.
  - intros allPools F p. rewrite F. apply filter_In.
Qed.

Lemma bin_discovery_requires_liquidity_and_reserves_witness :
  ~ In Examples.drainedPair [Examples.fundedPair].
Proof.
  refine (proj1 (proj2 (bin_discovery_requires_liquidity_and_reserves
            (Examples.dlmmEnv (JS.Resolved [Examples.drainedPair; Examples.fundedPair]))
            Examples.USDC [Examples.fundedPair]
            (events (Dlmm.fetchSolTokenPools
               (Examples.dlmmEnv (JS.Resolved [Examples.drainedPair; Examples.fundedPair]))
               Examples.USDC)) _)) Examples.drainedPair _).
  - vm_compute. reflexivity.
  - left. vm_compute. reflexivity.
Defined.

End DiscoveryClaims.

(* ================================================================== *)
(** * The constant-product quoter (QuoteEngine) *)
(* ================================================================== *)

Module QuoterClaims.

Import Eff Spec EffFacts DiscoveryFacts PassFacts BigNumberFacts.
Local Open Scope string_scope.

(** The selected pool of a pass has the native mint on one side. *)
Lemma reached_pool_has_native_mint token env fuel L pools state params :
  Reached token env fuel L pools state params ->
  Dammv2.token_a_mint (Dammv2.pool L) = Constants.SOL_MINT
  \/ Dammv2.token_b_mint (Dammv2.pool L) = Constants.SOL_MINT.
Proof.
  intros R. destruct (reached_discovery R) as (log & D).
  apply fetchSolTokenPools_kept in D. rewrite Forall_forall in D.
  apply (D (Dammv2.pool L)). apply findHighestTvlPool_In. exact (reached_select R).
Qed.

(** C4, amended.  In a pass that reaches its final return, the quote was
    asked for an input of 10^9 base units of the native mint, and the
    normalized fee is the raw total fee divided (to 20 decimal places) by 10
    to the decimals of the pool's side-B mint: the native asset's decimals
    when the native asset is side B, the other token's when the native asset
    is side A. *)
Theorem fee_normalized_by_side_b_decimals :
  forall token env fuel record L log,
    Dammv2.runPass token env fuel = (Returns (record, Some L), log) ->
    exists mintB params,
      Dammv2.getMint env (Dammv2.token_b_mint (Dammv2.pool L)) = JS.Resolved mintB
      /\ Dammv2.feeMint L = mintB
      /\ Dammv2.fee L
         = BigNumber.dividedBy (BigNumber.ofZ (Dammv2.totalFee (Dammv2.quote L)))
             (BigNumber.pow10 (Z.of_nat (Dammv2.decimals mintB)))
      /\ Dammv2.getQuote env params = JS.Resolved (Dammv2.quote L)
      /\ Dammv2.inAmount params = 1000000000%Z
      /\ Dammv2.inputTokenMint params = Constants.SOL_MINT.
Proof.
  intros token env fuel record L log H.
  destruct (runPass_reached _ _ _ _ _ _ H) as (pools & state & params & R).
  pose proof (reached_pool_has_native_mint _ _ _ _ _ _ _ R) as Side.
  pose proof (reached_side R) as S.
  pose proof (reached_feeMint R) as FM.
  pose proof (reached_output R) as Out.
  pose proof (reached_input R) as In.
  pose proof (reached_fee R) as F.
  exists (Dammv2.feeMint L), params.
  split; [|split; [reflexivity|split; [exact F|]]].
  - rewrite FM. destruct (Dammv2.isSolOutput L) eqn:E.
    + symmetry in S. apply negb_true_iff, String.eqb_neq in S.
      destruct Side as [Side|Side]; [contradiction|].
      rewrite Side. exact In.
    + exact Out.
  - split; [exact (reached_quote R)|].
    split; [exact (reached_inAmount R)|exact (reached_inMint R)].
Qed.

Lemma fee_normalized_by_side_b_decimals_witness :
  exists mintB params,
    Dammv2.getMint Examples.sideBEnv
      (Dammv2.token_b_mint Examples.usdcSolPool) = JS.Resolved mintB
    /\ Dammv2.decimals mintB = 9%nat
    /\ Dammv2.inAmount params = 1000000000%Z.
Proof.
  destruct (Dammv2.runPass Examples.USDC Examples.sideBEnv 2) as [[[record [L|]]|e|] log] eqn:E;
    try (vm_compute in E; discriminate E).
  destruct (fee_normalized_by_side_b_decimals _ _ _ _ _ _ E) as (mintB & params & G & _ & _ & _ & A & _).
  exists mintB, params.
  assert (P : Dammv2.pool L = Examples.usdcSolPool).
  { vm_compute in E. injection E as _ <- _. reflexivity. }
  rewrite P in G. split; [exact G|]. split; [|exact A].
  vm_compute in G. injection G as <-. reflexivity.
Defined.

(** C4 as stated fails when the native asset is side A: with USDC (6
    decimals) on side B and a raw fee of 375000, the code's fee is 0.375,
    the raw fee over 10^6, and not 0.000375, the raw fee over 10^9. *)
Lemma fee_divisor_is_not_native_decimals :
  exists record L log,
    Dammv2.runPass Examples.USDC Examples.sideAEnv 2 = (Returns (record, Some L), log)
    /\ Dammv2.token_a_mint (Dammv2.pool L) = Constants.SOL_MINT
    /\ Dammv2.totalFee (Dammv2.quote L) = 375000%Z
    /\ Dammv2.decimals (Dammv2.inputMint L) = 9%nat
    /\ Dammv2.decimals (Dammv2.feeMint L) = 6%nat
    /\ (exists q, Dammv2.fee L = BigNumber.Fin q /\ q == 375 # 1000)
    /\ (exists q, Dammv2.normalized (Dammv2.totalFee (Dammv2.quote L)) (Dammv2.inputMint L)
                  = BigNumber.Fin q /\ q == 375 # 1000000)
    /\ Dammv2.fee L
       <> Dammv2.normalized (Dammv2.totalFee (Dammv2.quote L)) (Dammv2.inputMint L).
Proof.
  do 3 eexists. split; [vm_compute; reflexivity|].
  cbn [Dammv2.pool Dammv2.quote Dammv2.inputMint Dammv2.feeMint Dammv2.fee
       Dammv2.token_a_mint Dammv2.totalFee Dammv2.decimals].
  repeat split.
  - eexists. split; [reflexivity|]. vm_compute. reflexivity.
  - eexists. split; [vm_compute; reflexivity|]. vm_compute. reflexivity.
  - vm_compute. discriminate.
Qed.

(** C9.  When the fetched pool state is falsy or has no key, the operation
    returns the record [{error: "Failed to fetch or parse valid pool
    state."}] and the pass ends right after the state was fetched: no call
    to [getQuote] (and no other call) follows. *)
Theorem unavailable_state_skips_quote :
  forall token env fuel pools pool log0 reply,
    Dammv2.fetchSolTokenPools token env fuel = (Returns pools, log0) ->
    Dammv2.findHighestTvlPool pools = Some pool ->
    PublicKey.isValid (Dammv2.pool_address pool) = true ->
    Dammv2.fetchPoolState env (Dammv2.pool_address pool) = JS.Resolved reply ->
    Dammv2.stateUnavailable reply = true ->
    Dammv2.getRealtimeSwapPrice token env fuel
    = (Returns [("error", JS.VString "Failed to fetch or parse valid pool state.")],
       (log0 ++ [FetchPoolState (Dammv2.pool_address pool)])%list)
    /\ forallb (fun e => negb (isGetQuote e))
         (events (Dammv2.getRealtimeSwapPrice token env fuel)) = true.
Proof.
  intros token env fuel pools pool log0 reply D S V F U.
  assert (Hlog0 : forallb (fun e => negb (isGetQuote e)) log0 = true).
  { clear - D. unfold Dammv2.fetchSolTokenPools in D.
    apply bind_Returns in D. destruct D as (st1 & l1 & l2 & H1 & D & ->).
    apply bind_Returns in D. destruct D as (st2 & l3 & l4 & H2 & D & ->).
    injection D as _ <-. rewrite app_nil_r.
    assert (K : forall fuel field offset st st' l,
               Dammv2.pageLoop token env fuel field offset st = (Returns st', l) ->
               forallb (fun e => negb (isGetQuote e)) l = true).
    { clear. induction fuel as [|fuel IH]; intros field offset st st' l H;
        cbn [Dammv2.pageLoop] in H; [discriminate|].
      apply bind_Returns in H. destruct H as ([] & la & lb & Ea & H & ->).
      injection Ea as <-.
      destruct (Dammv2.fetchPage env field token offset) as [[|p page]|e].
      - injection H as _ <-. reflexivity.
      - apply IH in H. cbn. exact H.
      - apply bind_Returns in H. destruct H as ([] & lc & ld & Ec & H & ->).
        injection Ec as <-. injection H as _ <-. reflexivity. }
    rewrite forallb_app, (K _ _ _ _ _ _ H1), (K _ _ _ _ _ _ H2). reflexivity. }
  assert (E : Dammv2.getRealtimeSwapPrice token env fuel
              = (Returns [("error", JS.VString "Failed to fetch or parse valid pool state.")],
                 (log0 ++ [FetchPoolState (Dammv2.pool_address pool)])%list)).
  { unfold Dammv2.getRealtimeSwapPrice, Dammv2.runPass.
    rewrite D. cbn [bind]. rewrite S.
    unfold newPublicKey. rewrite V. cbn [bind ret].
    unfold await. rewrite F. cbn [bind emit settle ret].
    rewrite U. cbn. rewrite !app_nil_r. reflexivity. }
  split; [exact E|].
  rewrite E. cbn [events snd]. rewrite forallb_app, Hlog0. reflexivity.
Qed.

Lemma unavailable_state_skips_quote_witness :
  outcome (Dammv2.getRealtimeSwapPrice Examples.USDC Examples.emptyStateEnv 2)
  = Returns [("error", JS.VString "Failed to fetch or parse valid pool state.")].
Proof.
  refine (f_equal fst (proj1 (unavailable_state_skips_quote
            Examples.USDC Examples.emptyStateEnv 2 [Examples.solUsdcPool]
            Examples.solUsdcPool
            (events (Dammv2.fetchSolTokenPools Examples.USDC Examples.emptyStateEnv 2))
            (Some {| Dammv2.keys := []; Dammv2.sqrtPrice := 0 |}) _ _ _ _ _)));
    vm_compute; reflexivity.
Defined.

(** C8.  When discovery yields no pool, each quoter returns its "no pool
    found" record, with nothing called after discovery; discovery itself
    never throws; and an index that answers the first page of both queries
    with an empty page makes the DAMM v2 pass return that record after those
    two requests. *)
Theorem no_pool_found_is_reported :
  (forall token env fuel log,
      Dammv2.fetchSolTokenPools token env fuel = (Returns [], log) ->
      Dammv2.getRealtimeSwapPrice token env fuel
      = (Returns [("error", JS.VString "No SOL-token pool found.")], log))
  /\ (forall env token log,
      Dlmm.fetchSolTokenPools env token = (Returns [], log) ->
      Dlmm.getRealtimeSwapPrice env token
      = (Returns [("error", JS.VString "No DLMM SOL-token pool found.")], log))
  /\ (forall token env fuel reason log,
      Dammv2.fetchSolTokenPools token env fuel <> (Throws reason, log))
  /\ (forall env token, exists pools log,
      Dlmm.fetchSolTokenPools env token = (Returns pools, log))
  /\ (forall token env fuel,
      Dammv2.fetchPage env "token_a_mint" token 0 = JS.Resolved [] ->
      Dammv2.fetchPage env "token_b_mint" token 0 = JS.Resolved [] ->
      Dammv2.getRealtimeSwapPrice token env (S fuel)
      = (Returns [("error", JS.VString "No SOL-token pool found.")],
         [HttpGet Constants.API_URL "token_a_mint" 0;
          HttpGet Constants.API_URL "token_b_mint" 0])).
Proof.
  split; [|split; [|split; [|split]]].
  - intros token env fuel log H.
    unfold Dammv2.getRealtimeSwapPrice, Dammv2.runPass. rewrite H.
    cbn. rewrite !app_nil_r. reflexivity.
  - intros env token log H.
    unfold Dlmm.getRealtimeSwapPrice. rewrite H.
    cbn. rewrite !app_nil_r. reflexivity.
  - intros token env fuel reason log. apply fetchSolTokenPools_never_throws.
  - intros env token.
    destruct (dlmm_fetchSolTokenPools_returns env token) as (log & E).
    eexists _, log. exact E.
  - intros token env fuel A B.
    unfold Dammv2.getRealtimeSwapPrice, Dammv2.runPass, Dammv2.fetchSolTokenPools.
    cbn [Dammv2.pageLoop]. rewrite A, B. reflexivity.
Qed.

Lemma no_pool_found_is_reported_witness :
  Dammv2.getRealtimeSwapPrice Examples.USDC Examples.emptyIndexEnv 2
  = (Returns [("error", JS.VString "No SOL-token pool found.")],
     [HttpGet Constants.API_URL "token_a_mint" 0;
      HttpGet Constants.API_URL "token_b_mint" 0]).
Proof.
  apply (proj2 (proj2 (proj2 (proj2 no_pool_found_is_reported)))
           Examples.USDC Examples.emptyIndexEnv 1%nat); reflexivity.
Defined.

End QuoterClaims.

(* ================================================================== *)
(** * Persistence (ResultPersister) *)
(* ================================================================== *)

Module PersistClaims.

Import Eff Spec PersistFacts.
Local Open Scope string_scope.






End PersistClaims.

(* ================================================================== *)
(** * The polling driver (PollingDriver) *)
(* ================================================================== *)

Module DriverClaims.

Import Eff Spec.
Local Open Scope string_scope.

(** A pass that throws ends the loop: the exception reaches the [catch]
    clause around [while (true)], nothing is saved and no later pass runs. *)
Lemma loop_exits_on_throw world token fuel passes i fs log reason evs :
  Dammv2.getRealtimeSwapPrice token (Index.envAt world i) fuel = (Throws reason, evs) ->
  Index.loop world token fuel (S passes) i fs log
  = Index.Exited i reason fs (log ++ evs ++ [Index.caught reason])%list.
Proof. intros H. cbn [Index.loop]. rewrite H. reflexivity. Qed.

(** A pass that returns a record, an [{error: ...}] one included, has it
    printed and saved, and the loop goes on after the delay. *)
Lemma loop_goes_on_after_return world token fuel passes i fs log result evs :
  Dammv2.getRealtimeSwapPrice token (Index.envAt world i) fuel = (Returns result, evs) ->
  Dammv2.writable fs "latest_price.json" = true ->
  exists fs' log',
    Index.loop world token fuel (S passes) i fs log
    = Index.loop world token fuel passes (S i) fs' log'
    /\ Dammv2.files fs' "latest_price.json"
       = Dammv2.Text (Some (JS.VArray
           (map JS.jsonRoundTrip (Dammv2.loadArray (Dammv2.files fs "latest_price.json"))
            ++ [storedEntry (result, Index.isoTimeAt world i)])%list)).
Proof.
  intros H W. cbn [Index.loop]. rewrite H.
  destruct (PersistFacts.save_appends "latest_price.json" result
              (Index.isoTimeAt world i) fs W) as (fs' & E & _ & F).
  rewrite E. exists fs'. eexists. split; [reflexivity|exact F].
Qed.








(** C1 fails on the code.  With a node whose pool-state call rejects, the
    first pass throws, [main] leaves its loop through the [catch] clause, and
    however many passes are allowed the driver has exited at pass 0: the log
    file was never written (no [{error: ...}] record) and no later pass
    ran. *)
Theorem driver_stops_when_a_pass_throws :
  forall passes,
    Index.main Examples.failingWorld 2 Examples.USDC (S passes) Examples.emptyDisk
    = Index.Exited 0 "failed to get info about account" Examples.emptyDisk
        [ ConsoleLog [JS.VString "Tracking SOL ->"; JS.VString Examples.USDC];
          HttpGet Constants.API_URL "token_a_mint" 0;
          HttpGet Constants.API_URL "token_b_mint" 0;
          HttpGet Constants.API_URL "token_b_mint" 50;
          FetchPoolState Examples.POOL_1;
          Index.caught "failed to get info about account" ].
Proof.
  intros passes. unfold Index.main.
  replace (PublicKey.isValid Examples.USDC) with true by (vm_compute; reflexivity).
  assert (P : Dammv2.getRealtimeSwapPrice Examples.USDC
                (Index.envAt Examples.failingWorld 0) 2
              = (Throws "failed to get info about account",
                 [ HttpGet Constants.API_URL "token_a_mint" 0;
                   HttpGet Constants.API_URL "token_b_mint" 0;
                   HttpGet Constants.API_URL "token_b_mint" 50;
                   FetchPoolState Examples.POOL_1 ]))
    by (vm_compute; reflexivity).
  rewrite (loop_exits_on_throw _ _ _ passes _ _ _ _ _ P). reflexivity.
Qed.

End DriverClaims.

(* ================================================================== *)
(** * Further properties: the DAMM v2 discovery *)
(* ================================================================== *)

Module DiscoveryCover.

Import Eff Spec Cover EffFacts DiscoveryFacts.
Local Open Scope string_scope.

Lemma includes_In xs x : JS.includes xs x = true <-> In x xs.
Proof.
  unfold JS.includes. rewrite existsb_exists. split.
  - intros (y & Hy & E). apply String.eqb_eq in E. subst y. exact Hy.
  - intros H. exists x. split; [exact H|apply String.eqb_refl].
Qed.

Lemma includes_false xs x : JS.includes xs x = false <-> ~ In x xs.
Proof.
  rewrite <- includes_In. destruct (JS.includes xs x); split; congruence.
Qed.

(** What one step of the scan does, case by case. *)
Lemma keepPool_cases st p :
  (In (Dammv2.pool_address p) (snd st) \/ ~ hasNativeMint p) /\ Dammv2.keepPool st p = st
  \/ ~ In (Dammv2.pool_address p) (snd st) /\ hasNativeMint p
     /\ Dammv2.keepPool st p
        = ((fst st ++ [p])%list, (snd st ++ [Dammv2.pool_address p])%list).
Proof.
  destruct st as [matched seen]. unfold Dammv2.keepPool. cbn [fst snd].
  destruct (JS.includes seen (Dammv2.pool_address p)) eqn:S; cbn [negb andb].
  - left. split; [|reflexivity]. left. apply includes_In. exact S.
  - destruct (JS.includes [Dammv2.token_a_mint p; Dammv2.token_b_mint p]
                Constants.SOL_MINT) eqn:N.
    + right. apply includes_false in S. apply includes_pair in N.
      repeat split; assumption.
    + left. split; [|reflexivity]. right. intros H.
      apply includes_pair in H. congruence.
Qed.

Lemma keepPool_invariant st p : scanInvariant st -> scanInvariant (Dammv2.keepPool st p).
Proof.
  intros [E N].
  destruct (keepPool_cases st p) as [[_ ->]|(S & _ & ->)]; [split; assumption|].
  split; cbn [fst snd].
  - rewrite map_app, E. reflexivity.
  - apply NoDup_app; [exact N|repeat constructor; intros []|].
    intros a Ha [<-|[]]. exact (S Ha).
Qed.

Lemma scan_invariant l : forall st,
  scanInvariant st -> scanInvariant (fold_left Dammv2.keepPool l st).
Proof.
  induction l as [|p l IH]; intros st I; [exact I|].
  cbn [fold_left]. apply IH, keepPool_invariant, I.
Qed.

(** The addresses seen after a scan from nothing: those of the pools of the
    list that hold the native mint. *)
Lemma scan_seen l a :
  In a (snd (fold_left Dammv2.keepPool l ([], [])))
  <-> exists x, In x l /\ hasNativeMint x /\ Dammv2.pool_address x = a.
Proof.
  induction l as [|p l IH] using rev_ind.
  - cbn. split; [intros []|intros (x & [] & _)].
  - rewrite fold_left_app. cbn [fold_left].
    set (st := fold_left Dammv2.keepPool l ([], [])) in *.
    destruct (keepPool_cases st p) as [[C ->]|(S & N & ->)].
    + rewrite IH. split.
      * intros (x & Hx & R). exists x. split; [apply in_or_app; left; exact Hx|exact R].
      * intros (x & Hx & Nx & Ex). apply in_app_or in Hx.
        destruct Hx as [Hx|[<-|[]]]; [exists x; auto|].
        destruct C as [C|C]; [|contradiction].
        rewrite Ex in C. apply IH in C. exact C.
    + cbn [snd]. rewrite in_app_iff, IH. split.
      * intros [(x & Hx & R)|[<-|[]]].
        -- exists x. split; [apply in_or_app; left; exact Hx|exact R].
        -- exists p. split; [apply in_or_app; right; left; reflexivity|auto].
      * intros (x & Hx & Nx & Ex). apply in_app_or in Hx.
        destruct Hx as [Hx|[<-|[]]]; [left; exists x; auto|right; left; exact Ex].
Qed.

(** The pools matched by a scan from nothing: the first pool of each
    address among those that hold the native mint. *)
Lemma scan_matched l q :
  In q (fst (fold_left Dammv2.keepPool l ([], []))) <-> firstWithAddress l q.
Proof.
  induction l as [|p l IH] using rev_ind.
  - cbn. split; [intros []|].
    intros (l1 & l2 & E & _). destruct l1; discriminate E.
  - rewrite fold_left_app. cbn [fold_left].
    pose proof (scan_seen l (Dammv2.pool_address p)) as Seen.
    set (st := fold_left Dammv2.keepPool l ([], [])) in *.
    assert (Old : firstWithAddress l q -> firstWithAddress (l ++ [p]) q).
    { intros (l1 & l2 & -> & R). exists l1, (l2 ++ [p])%list.
      split; [rewrite <- app_assoc; reflexivity|exact R]. }
    assert (Back : firstWithAddress (l ++ [p]) q ->
                   firstWithAddress l q
                   \/ q = p /\ hasNativeMint p
                      /\ forall x, In x l -> hasNativeMint x ->
                           Dammv2.pool_address x <> Dammv2.pool_address p).
    { intros (l1 & l2 & E & Nq & F).
      destruct l2 as [|y l2 _] using rev_ind.
      - apply app_inj_tail in E. destruct E as [-> ->]. right. auto.
      - rewrite app_comm_cons, app_assoc in E. apply app_inj_tail in E.
        destruct E as [-> _]. left. exists l1, l2. auto. }
    destruct (keepPool_cases st p) as [[C ->]|(S & N & ->)].
    + rewrite IH. split; [exact Old|].
      intros H. destruct (Back H) as [H'|(-> & Np & F)]; [exact H'|].
      exfalso. destruct C as [C|C]; [|contradiction].
      apply Seen in C. destruct C as (x & Hx & Nx & Ex). exact (F x Hx Nx Ex).
    + cbn [fst]. rewrite in_app_iff, IH. split.
      * intros [H|[<-|[]]]; [exact (Old H)|].
        exists l, []. split; [reflexivity|]. split; [exact N|].
        intros x Hx Nx Ex. apply S, Seen. exists x. auto.
      * intros H. destruct (Back H) as [H'|(-> & _)]; [left; exact H'|].
        right. left. reflexivity.
Qed.

Section Scan.

Variable tokenAddress : string.
Variable env : Dammv2.Env.

(** A paging loop that returns has scanned exactly the served pages. *)
Lemma pageLoop_scans fuel : forall field offset st st' log,
  Dammv2.pageLoop tokenAddress env fuel field offset st = (Returns st', log) ->
  st' = fold_left Dammv2.keepPool
          (List.concat (servedPages tokenAddress env fuel field offset)) st.
Proof.
  induction fuel as [|fuel IH]; intros field offset st st' log H;
    cbn [Dammv2.pageLoop] in H; [discriminate|].
  apply bind_Returns in H. destruct H as ([] & l1 & l2 & _ & H & _).
  cbn [servedPages].
  destruct (Dammv2.fetchPage env field tokenAddress offset) as [[|p page]|e].
  - injection H as <- _. reflexivity.
  - apply IH in H. cbn [List.concat]. rewrite fold_left_app. exact H.
  - apply bind_Returns in H. destruct H as ([] & l3 & l4 & _ & H & _).
    injection H as <- _. reflexivity.
Qed.

Lemma fetchSolTokenPools_scans fuel pools log :
  Dammv2.fetchSolTokenPools tokenAddress env fuel = (Returns pools, log) ->
  pools = fst (fold_left Dammv2.keepPool (served tokenAddress env fuel) ([], [])).
Proof.
  unfold Dammv2.fetchSolTokenPools. intros H.
  apply bind_Returns in H. destruct H as (st1 & l1 & l2 & H1 & H & _).
  apply bind_Returns in H. destruct H as (st2 & l3 & l4 & H2 & H & _).
  injection H as <- _.
  apply pageLoop_scans in H1, H2. subst st1 st2.
  unfold served. rewrite fold_left_app. reflexivity.
Qed.

End Scan.

(** X1.  The pools a DAMM v2 discovery returns have pairwise distinct pool
    addresses, whatever the index serves (the same pool on both queries, on
    two pages, or twice on one page). *)
Theorem discovery_addresses_are_distinct :
  forall token env fuel pools log,
    Dammv2.fetchSolTokenPools token env fuel = (Returns pools, log) ->
    NoDup (map Dammv2.pool_address pools).
Proof.
  intros token env fuel pools log H.
  apply fetchSolTokenPools_scans in H. subst pools.
  destruct (scan_invariant (served token env fuel) ([], [])) as [E N].
  - split; [reflexivity|constructor].
  - rewrite E. exact N.
Qed.

Lemma discovery_addresses_are_distinct_witness :
  NoDup (map Dammv2.pool_address [Examples.solUsdcPool; Examples.usdcSolPool]).
Proof.
  apply (discovery_addresses_are_distinct Examples.USDC Cases.twiceServedEnv 3
           [Examples.solUsdcPool; Examples.usdcSolPool]
           (events (Dammv2.fetchSolTokenPools Examples.USDC Cases.twiceServedEnv 3))).
  vm_compute. reflexivity.
Defined.

(** X2.  A DAMM v2 discovery returns exactly the pools that are, among the
    served pools holding the native mint, the first with their address (the
    side-A query's pages first, then the side-B query's): no address of a
    served pool that holds the native mint is lost, and a later record with
    a known address never replaces the first one. *)
Theorem discovery_keeps_first_of_each_address :
  forall token env fuel pools log,
    Dammv2.fetchSolTokenPools token env fuel = (Returns pools, log) ->
    (forall q, In q pools <-> firstWithAddress (served token env fuel) q)
    /\ (forall p, In p (served token env fuel) -> hasNativeMint p ->
          exists q, In q pools /\ Dammv2.pool_address q = Dammv2.pool_address p).
Proof.
  intros token env fuel pools log H.
  apply fetchSolTokenPools_scans in H. subst pools. split.
  - intros q. apply scan_matched.
  - intros p Hp Np.
    assert (S : In (Dammv2.pool_address p)
                   (snd (fold_left Dammv2.keepPool (served token env fuel) ([], [])))).
    { apply scan_seen. exists p. auto. }
    destruct (scan_invariant (served token env fuel) ([], [])) as [E _].
    { split; [reflexivity|constructor]. }
    rewrite <- E in S. apply in_map_iff in S. destruct S as (q & Eq & Hq).
    exists q. split; assumption.
Qed.

Lemma discovery_keeps_first_of_each_address_witness :
  exists q,
    In q [Examples.solUsdcPool; Examples.usdcSolPool]
    /\ Dammv2.pool_address q = Dammv2.pool_address Cases.solUsdcPoolAgain.
Proof.
  apply (proj2 (discovery_keeps_first_of_each_address Examples.USDC
                  Cases.twiceServedEnv 3 [Examples.solUsdcPool; Examples.usdcSolPool]
                  (events (Dammv2.fetchSolTokenPools Examples.USDC
                             Cases.twiceServedEnv 3))
                  ltac:(vm_compute; reflexivity))).
  - vm_compute. right. right. left. reflexivity.
  - left. reflexivity.
Defined.

Lemma count_app f l1 l2 : count f (l1 ++ l2) = (count f l1 + count f l2)%nat.
Proof. unfold count. rewrite filter_app, length_app. reflexivity. Qed.

Section Stop.

Variable tokenAddress : string.
Variable env : Dammv2.Env.

(** A paging loop whose page [n] (counted from [offset]) ends the query
    returns within [n + 1] requests, and a larger step budget changes
    nothing. *)
Lemma pageLoop_stops n : forall fuel field offset st,
  (n < fuel)%nat ->
  replyEnds (Dammv2.fetchPage env field tokenAddress (offset + 50 * n)) ->
  exists st' log,
    (forall more,
       Dammv2.pageLoop tokenAddress env (fuel + more) field offset st = (Returns st', log))
    /\ (count isHttpGet log <= S n)%nat.
Proof.
  induction n as [|n IH]; intros fuel field offset st Hf He;
    (destruct fuel as [|fuel]; [lia|]).
  - replace (offset + 50 * 0)%nat with offset in He by lia.
    destruct (Dammv2.fetchPage env field tokenAddress offset) as [[|p page]|e] eqn:F;
      [|destruct He|].
    + exists st, [HttpGet Constants.API_URL field offset]. split; [|cbn; lia].
      intros more. cbn [Nat.add Dammv2.pageLoop]. rewrite F. reflexivity.
    + exists st, [HttpGet Constants.API_URL field offset;
                  ConsoleError [JS.VString "Error fetching pools:"; JS.VString e]].
      split; [|cbn; lia].
      intros more. cbn [Nat.add Dammv2.pageLoop]. rewrite F. reflexivity.
  - destruct (Dammv2.fetchPage env field tokenAddress offset) as [[|p page]|e] eqn:F.
    + exists st, [HttpGet Constants.API_URL field offset]. split; [|cbn; lia].
      intros more. cbn [Nat.add Dammv2.pageLoop]. rewrite F. reflexivity.
    + destruct (IH fuel field (offset + 50)%nat
                  (fold_left (Dammv2.keepPool) (p :: page) st)) as (st' & log & R & C).
      * lia.
      * replace (offset + 50 + 50 * n)%nat with (offset + 50 * S n)%nat by lia. exact He.
      * exists st', (HttpGet Constants.API_URL field offset :: log). split.
        -- intros more. cbn [Nat.add Dammv2.pageLoop]. rewrite F, R. reflexivity.
        -- change (HttpGet Constants.API_URL field offset :: log)
             with ([HttpGet Constants.API_URL field offset] ++ log)%list.
           rewrite count_app. cbn. cbn in C. lia.
    + exists st, [HttpGet Constants.API_URL field offset;
                  ConsoleError [JS.VString "Error fetching pools:"; JS.VString e]].
      split; [|cbn; lia].
      intros more. cbn [Nat.add Dammv2.pageLoop]. rewrite F. reflexivity.
Qed.

End Stop.

(** X3.  When each of the two queries has a page that is empty or fails
    (page [na] of the side-A query, page [nb] of the side-B query), a DAMM v2
    discovery allowed more than [na] and [nb] turns of its paging loops
    returns; it issues at most [na + nb + 2] requests, and allowing more
    turns changes neither the pools nor the events. *)
Theorem discovery_stops_at_an_ending_page :
  forall token env na nb fuel,
    pageEnds token env "token_a_mint" na ->
    pageEnds token env "token_b_mint" nb ->
    (na < fuel)%nat -> (nb < fuel)%nat ->
    exists pools log,
      (forall more,
         Dammv2.fetchSolTokenPools token env (fuel + more) = (Returns pools, log))
      /\ (count isHttpGet log <= na + nb + 2)%nat.
Proof.
  intros token env na nb fuel Ea Eb Ha Hb.
  destruct (pageLoop_stops token env na fuel "token_a_mint" 0%nat ([], []) Ha Ea)
    as (st1 & l1 & R1 & C1).
  destruct (pageLoop_stops token env nb fuel "token_b_mint" 0%nat st1 Hb Eb)
    as (st2 & l2 & R2 & C2).
  exists (fst st2), (l1 ++ l2 ++ [])%list. split.
  - intros more. unfold Dammv2.fetchSolTokenPools. rewrite R1. cbn [bind].
    rewrite R2. reflexivity.
  - rewrite !count_app. cbn. cbn in C1, C2. lia.
Qed.

Lemma discovery_stops_at_an_ending_page_witness :
  exists pools log,
    (forall more,
       Dammv2.fetchSolTokenPools Examples.USDC Cases.twiceServedEnv (2 + more)
       = (Returns pools, log))
    /\ (count isHttpGet log <= 1 + 1 + 2)%nat.
Proof.
  apply (discovery_stops_at_an_ending_page Examples.USDC Cases.twiceServedEnv 1 1 2).
  - exact I.
  - exact I.
  - lia.
  - lia.
Defined.

End DiscoveryCover.

(* ================================================================== *)
(** * Further properties: selection and the symbol of a pool name *)
(* ================================================================== *)

Module SelectCover.

Import Spec Cover.
Local Open Scope string_scope.

Lemma insertSorted_In {A} (cmp : A -> A -> JS.number) x a l :
  In x (Dlmm.insertSorted cmp a l) <-> x = a \/ In x l.
Proof.
  induction l as [|y t IH]; cbn [Dlmm.insertSorted].
  - cbn. intuition congruence.
  - destruct (JS.gt (cmp a y) 0%float); cbn [In]; [rewrite IH|]; intuition congruence.
Qed.

Lemma sort_In {A} (cmp : A -> A -> JS.number) x l :
  In x (Dlmm.sort cmp l) <-> In x l.
Proof.
  induction l as [|a l IH]; [reflexivity|].
  cbn [Dlmm.sort fold_right]. rewrite insertSorted_In. fold (Dlmm.sort cmp l).
  rewrite IH. cbn. intuition congruence.
Qed.

Lemma findHighestLiquidityPool_In pools p :
  Dlmm.findHighestLiquidityPool pools = Some p -> In p pools.
Proof.
  destruct pools as [|a l]; [discriminate|].
  unfold Dlmm.findHighestLiquidityPool. intros H.
  apply (sort_In Dlmm.byLiquidityDesc).
  destruct (Dlmm.sort Dlmm.byLiquidityDesc (a :: l)) as [|y t]; [discriminate|].
  injection H as ->. left. reflexivity.
Qed.

Lemma findHighestLiquidityPool_None pools :
  Dlmm.findHighestLiquidityPool pools = None <-> pools = [].
Proof.
  split; [|intros ->; reflexivity].
  destruct pools as [|a l]; [reflexivity|].
  unfold Dlmm.findHighestLiquidityPool. intros H. exfalso.
  assert (I : In a (Dlmm.sort Dlmm.byLiquidityDesc (a :: l)))
    by (apply sort_In; left; reflexivity).
  destruct (Dlmm.sort Dlmm.byLiquidityDesc (a :: l)); [destruct I|discriminate].
Qed.

(** X4.  Whatever the liquidity texts are (missing, empty or not numbers
    included), each selector returns a pool of the list it was given, and
    returns none exactly on the empty list. *)
Theorem selectors_pick_a_member :
  (forall pools,
      (Dammv2.findHighestTvlPool pools = None <-> pools = [])
      /\ forall p, Dammv2.findHighestTvlPool pools = Some p -> In p pools)
  /\ (forall pools,
      (Dlmm.findHighestLiquidityPool pools = None <-> pools = [])
      /\ forall p, Dlmm.findHighestLiquidityPool pools = Some p -> In p pools).
Proof.
  split; intros pools; split.
  - destruct pools; cbn; split; congruence.
  - intros p. apply PassFacts.findHighestTvlPool_In.
  - apply findHighestLiquidityPool_None.
  - intros p. apply findHighestLiquidityPool_In.
Qed.

Lemma find_first {A} (f : A -> bool) l x :
  find f l = Some x ->
  exists l1 l2, l = (l1 ++ x :: l2)%list /\ f x = true
                /\ Forall (fun y => f y = false) l1.
Proof.
  induction l as [|a l IH]; [discriminate|]. cbn [find].
  destruct (f a) eqn:Fa.
  - intros [= ->]. exists [], l. repeat split; [exact Fa|constructor].
  - intros H. destruct (IH H) as (l1 & l2 & -> & Fx & P).
    exists (a :: l1), l2. repeat split; [exact Fx|constructor; assumption].
Qed.

(** X5.  For a pool name of ASCII characters, the symbol read off the name
    is never empty and never SOL in any letter case; it is either the text
    UNKNOWN or the first component of the name (between dashes) that is not
    SOL in any letter case, every component before it being SOL. *)
Theorem parseTokenSymbol_is_first_other_part :
  forall poolName,
    asciiText poolName = true ->
    let symbol := Dlmm.parseTokenSymbol poolName in
    symbol <> ""
    /\ JS.toUpperCase symbol <> "SOL"
    /\ (symbol = "UNKNOWN"
        \/ exists before after,
             JS.split "-" poolName = (before ++ symbol :: after)%list
             /\ Forall (fun part => JS.toUpperCase part = "SOL") before).
Proof.
  intros poolName _ symbol. unfold symbol, Dlmm.parseTokenSymbol.
  assert (U : "UNKNOWN" <> "" /\ JS.toUpperCase "UNKNOWN" <> "SOL"
              /\ ("UNKNOWN" = "UNKNOWN"
                  \/ exists before after,
                       JS.split "-" poolName = (before ++ "UNKNOWN" :: after)%list
                       /\ Forall (fun part => JS.toUpperCase part = "SOL") before)).
  { repeat split; [discriminate|vm_compute; discriminate|left; reflexivity]. }
  destruct (2 <=? List.length (JS.split "-" poolName))%nat; [|exact U].
  destruct (find _ (JS.split "-" poolName)) as [x|] eqn:F; [|exact U].
  cbn [JS.orElse]. destruct (String.eqb x "") eqn:E; [exact U|].
  apply String.eqb_neq in E.
  destruct (find_first _ _ _ F) as (l1 & l2 & S & Fx & P).
  apply negb_true_iff, String.eqb_neq in Fx.
  repeat split; [exact E|exact Fx|]. right. exists l1, l2. split; [exact S|].
  eapply Forall_impl; [|exact P]. cbn. intros part H.
  apply negb_false_iff, String.eqb_eq in H. exact H.
Qed.

Lemma parseTokenSymbol_is_first_other_part_witness :
  Dlmm.parseTokenSymbol "sol-Sol-BONK-SOL" <> ""
  /\ JS.toUpperCase (Dlmm.parseTokenSymbol "sol-Sol-BONK-SOL") <> "SOL"
  /\ (Dlmm.parseTokenSymbol "sol-Sol-BONK-SOL" = "UNKNOWN"
      \/ exists before after,
           JS.split "-" "sol-Sol-BONK-SOL"
           = (before ++ Dlmm.parseTokenSymbol "sol-Sol-BONK-SOL" :: after)%list
           /\ Forall (fun part => JS.toUpperCase part = "SOL") before).
Proof.
  apply (parseTokenSymbol_is_first_other_part "sol-Sol-BONK-SOL").
  reflexivity.
Defined.

End SelectCover.

(* ================================================================== *)
(** * Further properties: the events of a computation *)
(* ================================================================== *)

Module TraceFacts.

Import Eff.

Lemma In_events_bind {A B} (m : M A) (k : A -> M B) e :
  In e (events (bind m k)) ->
  In e (events m) \/ exists a l, m = (Returns a, l) /\ In e (events (k a)).
Proof.
  destruct m as [[a|r|] l]; cbn [bind events snd]; [|left; assumption..].
  destruct (k a) as [o l'] eqn:E. cbn [snd]. intros H.
  apply in_app_or in H. destruct H as [H|H]; [left; exact H|].
  right. exists a, l. split; [reflexivity|]. rewrite E. exact H.
Qed.

Lemma Forall_events_bind {A B} (P : Event -> Prop) (m : M A) (k : A -> M B) :
  Forall P (events m) ->
  (forall a, Forall P (events (k a))) ->
  Forall P (events (bind m k)).
Proof.
  intros Hm Hk. destruct m as [[a|r|] l]; cbn [bind events snd] in *; try exact Hm.
  specialize (Hk a). destruct (k a) as [o l']. cbn [snd] in *.
  apply Forall_app. split; assumption.
Qed.



Lemma events_newPublicKey s : events (newPublicKey s) = [].
Proof. unfold newPublicKey. destruct (PublicKey.isValid s); reflexivity. Qed.

Lemma events_await {A} e (r : JS.Result A) : events (await e r) = [e].
Proof. destruct r; reflexivity. Qed.

Lemma events_promiseAll2 {A B} (p : JS.Result A) (q : JS.Result B) :
  events (promiseAll2 p q) = [].
Proof. destruct p, q; reflexivity. Qed.

Lemma events_ret_after {A B} (m : M A) (f : A -> B) :
  events (bind m (fun a => ret (f a))) = events m.
Proof.
  destruct m as [[a|r|] l]; cbn [bind events snd ret]; try reflexivity.
  apply app_nil_r.
Qed.

End TraceFacts.

(* ================================================================== *)
(** * Further properties: the requests of a DAMM v2 discovery *)
(* ================================================================== *)

Module RequestCover.

Import Eff Spec Cover EffFacts TraceFacts.
Local Open Scope string_scope.

Section Requests.

Variable tokenAddress : string.
Variable env : Dammv2.Env.

Lemma servedPages_length fuel : forall field offset,
  (List.length (servedPages tokenAddress env fuel field offset) <= fuel)%nat.
Proof.
  induction fuel as [|fuel IH]; intros field offset; cbn [servedPages]; [cbn; lia|].
  destruct (Dammv2.fetchPage env field tokenAddress offset) as [[|p page]|e];
    cbn [List.length]; try lia.
  specialize (IH field (offset + 50)%nat). lia.
Qed.

(** The paging loop returns when a page ended the query within the step
    budget, and is still running otherwise; it never throws. *)
Lemma pageLoop_outcome fuel : forall field offset st,
  if (List.length (servedPages tokenAddress env fuel field offset) <? fuel)%nat
  then exists st', outcome (Dammv2.pageLoop tokenAddress env fuel field offset st)
                   = Returns st'
  else outcome (Dammv2.pageLoop tokenAddress env fuel field offset st) = Pending.
Proof.
  induction fuel as [|fuel IH]; intros field offset st;
    cbn [servedPages Dammv2.pageLoop]; [reflexivity|].
  destruct (Dammv2.fetchPage env field tokenAddress offset) as [[|p page]|e];
    cbn [List.length].
  - exists st. reflexivity.
  - specialize (IH field (offset + 50)%nat (fold_left Dammv2.keepPool (p :: page) st)).
    change (S (List.length (servedPages tokenAddress env fuel field (offset + 50)))
              <? S fuel)%nat
      with (List.length (servedPages tokenAddress env fuel field (offset + 50))
              <? fuel)%nat.
    destruct (_ <? fuel)%nat.
    + destruct IH as (st' & E). exists st'.
      destruct (Dammv2.pageLoop tokenAddress env fuel field (offset + 50) _) as [o l].
      cbn in E |- *. exact E.
    + destruct (Dammv2.pageLoop tokenAddress env fuel field (offset + 50) _) as [o l].
      cbn in IH |- *. rewrite IH. reflexivity.
  - exists st. reflexivity.
Qed.

(** The requests of one paging loop: the pages from [offset] on, 50 pools
    apart, up to and including the first page that ends the query. *)
Lemma pageLoop_requests fuel : forall field offset st,
  filter isHttpGet (events (Dammv2.pageLoop tokenAddress env fuel field offset st))
  = map (fun i => HttpGet Constants.API_URL field (offset + 50 * i))
      (seq 0 (Nat.min fuel
                (S (List.length (servedPages tokenAddress env fuel field offset))))).
Proof.
  induction fuel as [|fuel IH]; intros field offset st;
    cbn [servedPages Dammv2.pageLoop]; [reflexivity|].
  assert (Z0 : (offset + 50 * 0)%nat = offset) by lia.
  destruct (Dammv2.fetchPage env field tokenAddress offset) as [[|p page]|e];
    cbn [List.length]; rewrite <- Nat.succ_min_distr; cbn [seq map]; rewrite Z0.
  - rewrite Nat.min_0_r. reflexivity.
  - specialize (IH field (offset + 50)%nat (fold_left Dammv2.keepPool (p :: page) st)).
    rewrite <- seq_shift, map_map.
    destruct (Dammv2.pageLoop tokenAddress env fuel field (offset + 50) _) as [o l].
    cbn [bind emit events snd app filter isHttpGet] in IH |- *.
    rewrite IH. f_equal. apply map_ext. intros i. f_equal. lia.
  - rewrite Nat.min_0_r. reflexivity.
Qed.

End Requests.

(** X6.  A DAMM v2 discovery requests the pages of the side-A query at
    offsets 0, 50, 100, ... up to and including the first page that is
    empty or fails (or until the step budget is spent), and then, when the
    first loop has ended, the pages of the side-B query in the same way: no
    page is skipped, and none is requested twice. *)
Theorem discovery_requests_pages_in_order :
  forall token env fuel,
    let na := List.length (servedPages token env fuel "token_a_mint" 0) in
    let nb := List.length (servedPages token env fuel "token_b_mint" 0) in
    filter isHttpGet (events (Dammv2.fetchSolTokenPools token env fuel))
    = (requests "token_a_mint" (Nat.min fuel (S na))
       ++ (if (na <? fuel)%nat then requests "token_b_mint" (Nat.min fuel (S nb))
           else []))%list.
Proof.
  intros token env fuel na nb. unfold Dammv2.fetchSolTokenPools.
  pose proof (pageLoop_requests token env fuel "token_a_mint" 0 ([], [])) as Ra.
  pose proof (pageLoop_outcome token env fuel "token_a_mint" 0 ([], [])) as Oa.
  fold na in Ra, Oa. unfold requests.
  destruct (Dammv2.pageLoop token env fuel "token_a_mint" 0 ([], [])) as [oa la].
  cbn [events snd outcome fst] in Ra, Oa.
  destruct (na <? fuel)%nat.
  - destruct Oa as (st1 & ->). cbn [bind].
    pose proof (pageLoop_requests token env fuel "token_b_mint" 0 st1) as Rb.
    fold nb in Rb.
    destruct (Dammv2.pageLoop token env fuel "token_b_mint" 0 st1) as [[st2|r|] lb];
      cbn [bind ret events snd] in Rb |- *;
      rewrite ?app_nil_r, filter_app, Ra, Rb; reflexivity.
  - rewrite Oa. cbn [bind events snd]. rewrite Ra, app_nil_r. reflexivity.
Qed.

End RequestCover.

(* ================================================================== *)
(** * Further properties: one pass of the DAMM v2 quoter *)
(* ================================================================== *)

Module PassCover.

Import Eff Spec Cover EffFacts TraceFacts PassFacts.
Local Open Scope string_scope.

(** An event that cannot be the one looked for, or no event at all. *)
Ltac dead H :=
  first
    [ rewrite events_newPublicKey in H; destruct H
    | rewrite events_promiseAll2 in H; destruct H
    | rewrite events_await in H; destruct H as [H|[]]; discriminate H
    | destruct H as [H|[]]; discriminate H
    | destruct H ].

Section Pass.

Variable tokenAddress : string.
Variable env : Dammv2.Env.

Lemma pageLoop_events fuel : forall field offset st,
  Forall (fun e => isDiscoveryEvent e = true)
         (events (Dammv2.pageLoop tokenAddress env fuel field offset st)).
Proof.
  induction fuel as [|fuel IH]; intros field offset st; cbn [Dammv2.pageLoop];
    [constructor|].
  apply Forall_events_bind; [repeat constructor|]. intros _.
  destruct (Dammv2.fetchPage env field tokenAddress offset) as [[|p page]|e].
  - constructor.
  - apply IH.
  - repeat constructor.
Qed.

(** A discovery does nothing but request pages and report failed requests. *)
Lemma discovery_events fuel :
  Forall (fun e => isDiscoveryEvent e = true)
         (events (Dammv2.fetchSolTokenPools tokenAddress env fuel)).
Proof.
  unfold Dammv2.fetchSolTokenPools.
  apply Forall_events_bind; [apply pageLoop_events|]. intros st1.
  apply Forall_events_bind; [apply pageLoop_events|]. intros st2. constructor.
Qed.

Lemma events_getRealtimeSwapPrice fuel :
  events (Dammv2.getRealtimeSwapPrice tokenAddress env fuel)
  = events (Dammv2.runPass tokenAddress env fuel).
Proof. unfold Dammv2.getRealtimeSwapPrice. apply events_ret_after. Qed.

(** The record of a pass that reached its final [return]. *)
Lemma runPass_record fuel record L log :
  Dammv2.runPass tokenAddress env fuel = (Returns (record, Some L), log) ->
  record = quoteRecord tokenAddress env L.
Proof.
  unfold Dammv2.runPass. intros H.
  peel H pools l.
  destruct (Dammv2.findHighestTvlPool pools) as [pool|] eqn:Sel; [|discriminate].
  peel H poolKey l. apply newPublicKey_Returns in E0. destruct E0 as (-> & _ & _).
  peel H fetched l.
  destruct (Dammv2.stateUnavailable fetched) eqn:U; [discriminate|].
  destruct fetched as [state|]; [|discriminate].
  peel H u1 l. peel H otherKey l. peel H u2 l.
  peel H mints l. destruct mints as [inputMint outputMint].
  peel H epochIn l. peel H epochOut l. peel H slot l. peel H quote l.
  peel H keyA l. peel H u3 l. peel H keyB l. peel H u4 l.
  peel H mintsAB l. destruct mintsAB as [tokenAMint tokenBMint].
  injection H as <- <- _. reflexivity.
Qed.

(** A pass that returned early: discovery found nothing, or the selected
    pool had no usable state. *)
Lemma runPass_early fuel record log :
  Dammv2.runPass tokenAddress env fuel = (Returns (record, None), log) ->
  (record = noPoolFoundRecord
   /\ exists log0,
        Dammv2.fetchSolTokenPools tokenAddress env fuel = (Returns [], log0))
  \/ (record = noStateRecord /\ stateless tokenAddress env fuel).
Proof.
  unfold Dammv2.runPass. intros H.
  peel H pools l.
  destruct (Dammv2.findHighestTvlPool pools) as [pool|] eqn:Sel.
  2:{ injection H as <- _. left. split; [reflexivity|].
      destruct pools; [|discriminate Sel]. eexists. exact E. }
  peel H poolKey l. apply newPublicKey_Returns in E0. destruct E0 as (-> & _ & _).
  peel H fetched l. apply await_Returns in E0. destruct E0 as (F & _).
  assert (St : Dammv2.stateUnavailable fetched = true ->
               stateless tokenAddress env fuel).
  { intros U. exists pools. eexists. exists pool, fetched.
    repeat split; eassumption. }
  destruct (Dammv2.stateUnavailable fetched) eqn:U;
    [injection H as <- _; right; split; [reflexivity|apply St; reflexivity]|].
  destruct fetched as [state|]; [|discriminate U].
  peel H u1 l. peel H otherKey l. peel H u2 l.
  peel H mints l. destruct mints as [inputMint outputMint].
  peel H epochIn l. peel H epochOut l. peel H slot l. peel H quote l.
  peel H keyA l. peel H u3 l. peel H keyB l. peel H u4 l.
  peel H mintsAB l. destruct mintsAB as [tokenAMint tokenBMint].
  discriminate H.
Qed.

(** A pass that reached its final [return]: the record is that of the
    selected pool, of the mint account obtained for the output side and of
    the quote obtained for that pool's state. *)
Lemma runPass_quoted fuel record L log :
  Dammv2.runPass tokenAddress env fuel = (Returns (record, Some L), log) ->
  quoted tokenAddress env fuel (Dammv2.pool L) (Dammv2.outputMint L) (Dammv2.quote L)
  /\ record = passRecord tokenAddress env (Dammv2.pool L) (Dammv2.outputMint L)
                         (Dammv2.quote L).
Proof.
  intros R.
  pose proof (runPass_record _ _ _ _ R) as ->.
  destruct (runPass_reached _ _ _ _ _ _ R) as (pools & state & params & Re).
  split.
  - destruct (reached_discovery Re) as (log0 & D).
    exists pools, log0, state, params.
    split; [exact D|]. split; [exact (reached_select Re)|].
    split.
    { pose proof (DiscoveryFacts.fetchSolTokenPools_kept _ _ _ _ _ D) as K.
      rewrite Forall_forall in K.
      exact (K _ (findHighestTvlPool_In _ _ (reached_select Re))). }
    split; [exact (reached_fetch Re)|]. split; [exact (reached_usable Re)|].
    split.
    { pose proof (reached_output Re) as O. rewrite (reached_side Re) in O.
      destruct (String.eqb (Dammv2.token_a_mint (Dammv2.pool L)) Constants.SOL_MINT);
        exact O. }
    split; [exact (reached_quote Re)|]. split; [exact (reached_inAmount Re)|].
    split; [exact (reached_inMint Re)|exact (reached_quoteState Re)].
  - unfold quoteRecord, passRecord. rewrite (reached_amountOut Re). reflexivity.
Qed.

End Pass.

(** X7.  Every record a DAMM v2 pass returns has one of three shapes.  It
    is the "no pool found" record, and then discovery returned no pool; or
    the "no valid pool state" record, and then the state fetched for the
    selected pool was falsy or had no key; or the five-key record of the
    pool selected among the discovered ones (a pool the index served in
    reply to a query on the tracked token and which holds the native mint):
    its address, the output amount of the quote obtained for 10^9 base units
    of the native mint on that pool's state, divided by 10^(decimals of the
    mint account obtained for the other side) and printed with 6 decimals,
    its TVL printed with 2 decimals, the symbol of the tracked token's side
    (side A when the tracked token is [token_a_mint], side B otherwise) and
    the tracked token's address. *)
Theorem pass_record_has_one_of_three_shapes :
  forall token env fuel record log,
    Dammv2.getRealtimeSwapPrice token env fuel = (Returns record, log) ->
    (record = noPoolFoundRecord
     /\ exists log0, Dammv2.fetchSolTokenPools token env fuel = (Returns [], log0))
    \/ (record = noStateRecord /\ stateless token env fuel)
    \/ exists pool outputMint quote,
         quoted token env fuel pool outputMint quote
         /\ record = passRecord token env pool outputMint quote.
Proof.
  intros token env fuel record log H.
  unfold Dammv2.getRealtimeSwapPrice in H.
  apply bind_Returns in H. destruct H as ([rec [L|]] & l1 & l2 & R & H & _);
    injection H as <- _; cbn [fst].
  - right. right.
    exists (Dammv2.pool L), (Dammv2.outputMint L), (Dammv2.quote L).
    exact (runPass_quoted _ _ _ _ _ _ R).
  - destruct (runPass_early _ _ _ _ _ R) as [E|E]; [left|right; left]; exact E.
Qed.

Lemma pass_record_has_one_of_three_shapes_witness :
  exists pool outputMint quote,
    quoted Examples.USDC Examples.sideAEnv 2 pool outputMint quote
    /\ [ ("pool_address", JS.VString Examples.POOL_1);
         ("amount_out_for_1_SOL", JS.VString "150.000000");
         ("total_tvl", JS.VString "500.00");
         ("token_symbol", JS.VString "B");
         ("token_address", JS.VString Examples.USDC) ]
       = passRecord Examples.USDC Examples.sideAEnv pool outputMint quote.
Proof.
  destruct (pass_record_has_one_of_three_shapes Examples.USDC Examples.sideAEnv 2
              [ ("pool_address", JS.VString Examples.POOL_1);
                ("amount_out_for_1_SOL", JS.VString "150.000000");
                ("total_tvl", JS.VString "500.00");
                ("token_symbol", JS.VString "B");
                ("token_address", JS.VString Examples.USDC) ]
              (events (Dammv2.getRealtimeSwapPrice Examples.USDC Examples.sideAEnv 2))
              ltac:(vm_compute; reflexivity))
    as [[E _]|[[E _]|Q]]; [discriminate E|discriminate E|exact Q].
Defined.

(** X8.  In a DAMM v2 pass, whether it then returns or throws, a quote is
    requested only for 10^9 base units of the native mint, and only after
    discovery returned, the selected pool (one that holds the native mint)
    had a valid address, its fetched state was present with at least one
    key, and the mint accounts of both sides, the epoch and the slot were
    obtained. *)
Theorem quote_is_asked_only_with_a_usable_state :
  forall token env fuel amount mint,
    In (GetQuote amount mint) (events (Dammv2.getRealtimeSwapPrice token env fuel)) ->
    amount = 1000000000%Z
    /\ mint = Constants.SOL_MINT
    /\ exists pools log pool state inputMint outputMint epoch slot,
         Dammv2.fetchSolTokenPools token env fuel = (Returns pools, log)
         /\ Dammv2.findHighestTvlPool pools = Some pool
         /\ hasNativeMint pool
         /\ PublicKey.isValid (Dammv2.pool_address pool) = true
         /\ Dammv2.fetchPoolState env (Dammv2.pool_address pool)
            = JS.Resolved (Some state)
         /\ Dammv2.keys state <> []
         /\ Dammv2.getMint env Constants.SOL_MINT = JS.Resolved inputMint
         /\ Dammv2.getMint env
              (if String.eqb (Dammv2.token_a_mint pool) Constants.SOL_MINT
               then Dammv2.token_b_mint pool else Dammv2.token_a_mint pool)
            = JS.Resolved outputMint
         /\ Dammv2.getEpochInfo env = JS.Resolved epoch
         /\ Dammv2.getSlot env = JS.Resolved slot.
Proof.
  intros token env fuel amount mint H.
  rewrite events_getRealtimeSwapPrice in H. unfold Dammv2.runPass in H.
  apply In_events_bind in H. destruct H as [H|(pools & l0 & D & H)].
  { pose proof (discovery_events token env fuel) as F.
    rewrite Forall_forall in F. apply F in H. discriminate H. }
  destruct (Dammv2.findHighestTvlPool pools) as [pool|] eqn:Sel; [|destruct H].
  apply In_events_bind in H. destruct H as [H|(poolKey & l1 & K & H)]; [dead H|].
  apply newPublicKey_Returns in K. destruct K as (-> & _ & V).
  apply In_events_bind in H. destruct H as [H|(fetched & l2 & F & H)]; [dead H|].
  apply await_Returns in F. destruct F as (F & _).
  destruct (Dammv2.stateUnavailable fetched) eqn:U; [destruct H|].
  destruct fetched as [state|]; [|destruct H].
  apply In_events_bind in H. destruct H as [H|(u1 & l3 & _ & H)]; [dead H|].
  apply In_events_bind in H. destruct H as [H|(otherKey & l4 & K & H)]; [dead H|].
  apply newPublicKey_Returns in K. destruct K as (-> & _ & _).
  apply In_events_bind in H. destruct H as [H|(u2 & l5 & _ & H)]; [dead H|].
  apply In_events_bind in H. destruct H as [H|([inputMint outputMint] & l6 & P & H)];
    [dead H|].
  apply promiseAll2_Returns in P. destruct P as (Hin & Hout & _).
  apply In_events_bind in H. destruct H as [H|(epochIn & l7 & Ein & H)]; [dead H|].
  apply await_Returns in Ein. destruct Ein as (Ein & _).
  apply In_events_bind in H. destruct H as [H|(epochOut & l8 & _ & H)]; [dead H|].
  apply In_events_bind in H. destruct H as [H|(slot & l9 & Sl & H)]; [dead H|].
  apply await_Returns in Sl. destruct Sl as (Sl & _).
  apply In_events_bind in H. destruct H as [H|(quote & l10 & _ & H)].
  - rewrite events_await in H. destruct H as [H|[]]. cbn in H.
    injection H as <- <-. split; [reflexivity|]. split; [reflexivity|].
    exists pools, l0, pool, state, inputMint, outputMint, epochIn, slot.
    repeat split; try assumption.
    + pose proof (DiscoveryFacts.fetchSolTokenPools_kept _ _ _ _ _ D) as Kp.
      rewrite Forall_forall in Kp.
      exact (proj1 (Kp _ (findHighestTvlPool_In _ _ Sel))).
    + unfold Dammv2.stateUnavailable in U. intros E. rewrite E in U. discriminate U.
    + destruct (String.eqb (Dammv2.token_a_mint pool) Constants.SOL_MINT);
        exact Hout.
  - apply In_events_bind in H. destruct H as [H|(keyA & l11 & _ & H)]; [dead H|].
    apply In_events_bind in H. destruct H as [H|(u3 & l12 & _ & H)]; [dead H|].
    apply In_events_bind in H. destruct H as [H|(keyB & l13 & _ & H)]; [dead H|].
    apply In_events_bind in H. destruct H as [H|(u4 & l14 & _ & H)]; [dead H|].
    apply In_events_bind in H. destruct H as [H|([tA tB] & l15 & _ & H)]; [dead H|].
    destruct H.
Qed.

Lemma quote_is_asked_only_with_a_usable_state_witness :
  1000000000%Z = 1000000000%Z
  /\ Constants.SOL_MINT = Constants.SOL_MINT
  /\ exists pools log pool state inputMint outputMint epoch slot,
       Dammv2.fetchSolTokenPools Examples.USDC Examples.sideAEnv 2 = (Returns pools, log)
       /\ Dammv2.findHighestTvlPool pools = Some pool
       /\ hasNativeMint pool
       /\ PublicKey.isValid (Dammv2.pool_address pool) = true
       /\ Dammv2.fetchPoolState Examples.sideAEnv (Dammv2.pool_address pool)
          = JS.Resolved (Some state)
       /\ Dammv2.keys state <> []
       /\ Dammv2.getMint Examples.sideAEnv Constants.SOL_MINT = JS.Resolved inputMint
       /\ Dammv2.getMint Examples.sideAEnv
            (if String.eqb (Dammv2.token_a_mint pool) Constants.SOL_MINT
             then Dammv2.token_b_mint pool else Dammv2.token_a_mint pool)
          = JS.Resolved outputMint
       /\ Dammv2.getEpochInfo Examples.sideAEnv = JS.Resolved epoch
       /\ Dammv2.getSlot Examples.sideAEnv = JS.Resolved slot.
Proof.
  apply (quote_is_asked_only_with_a_usable_state Examples.USDC Examples.sideAEnv 2
           1000000000%Z Constants.SOL_MINT).
  vm_compute. do 9 right. left. reflexivity.
Defined.

End PassCover.

(* ================================================================== *)
(** * Further properties: normalised amounts *)
(* ================================================================== *)

Module AmountCover.

Import BigNumberFacts.
Local Open Scope Z_scope.

(** Rounding to [dp] places changes nothing when the denominator divides
    [10^dp]. *)
Lemma roundHalfUp_exact dp q c :
  10 ^ Z.of_nat dp = c * Zpos (Qden q) ->
  (BigNumber.roundHalfUp dp q == q)%Q.
Proof.
  intros E. unfold BigNumber.roundHalfUp, BigNumber.scaledHalfUp.
  pose proof (pow10_pos dp) as P. rewrite E in *.
  destruct q as [n d]. cbn [Qnum Qden] in *.
  assert (Hc : 0 < c) by nia.
  replace (2 * (Z.abs n * (c * Zpos d)) + Zpos d)
    with (Z.abs n * c * (2 * Zpos d) + Zpos d) by ring.
  rewrite Z.div_add_l by lia.
  rewrite (Z.div_small (Zpos d) (2 * Zpos d)) by lia.
  rewrite Z.add_0_r.
  replace (Z.sgn n * (Z.abs n * c)) with (n * c)
    by (rewrite Z.mul_assoc; f_equal; destruct n; reflexivity).
  destruct (c * Zpos d) as [|s|s] eqn:Es; try lia.
  unfold Qeq, Qdiv, Qmult, Qinv, inject_Z. cbn [Qnum Qden].
  rewrite Z.mul_1_r. cbn [Pos.mul]. rewrite <- Es. ring.
Qed.

Local Open Scope Q_scope.

(** X9.  Dividing a raw on-chain amount by 10^decimals, as the quoter does
    for the output amount and the fee, always gives a finite decimal within
    half a unit of the 20th decimal place of the exact quotient, and gives
    the exact quotient when the mint has at most 20 decimals. *)
Theorem normalized_amount_is_exact_up_to_20_decimals :
  forall raw m,
    exists q,
      Dammv2.normalized raw m = BigNumber.Fin q
      /\ Qabs (q - inject_Z raw / inject_Z (10 ^ Z.of_nat (Dammv2.decimals m)))
         <= 1 # (2 * Z.to_pos (10 ^ Z.of_nat BigNumber.DECIMAL_PLACES))
      /\ ((Dammv2.decimals m <= BigNumber.DECIMAL_PLACES)%nat ->
          q == inject_Z raw / inject_Z (10 ^ Z.of_nat (Dammv2.decimals m))).
Proof.
  intros raw m. unfold Dammv2.normalized, BigNumber.pow10, BigNumber.ofZ.
  set (d := Dammv2.decimals m).
  pose proof (pow10_pos d) as P.
  replace (0 <=? Z.of_nat d)%Z with true by (symmetry; apply Z.leb_le; lia).
  unfold BigNumber.dividedBy.
  destruct (Qeq_bool (inject_Z (10 ^ Z.of_nat d)) 0) eqn:E.
  { apply Qeq_bool_iff in E. unfold Qeq in E. cbn in E. lia. }
  eexists. split; [reflexivity|]. split; [apply roundHalfUp_error|].
  intros Hd.
  apply (roundHalfUp_exact _ _ (10 ^ (Z.of_nat BigNumber.DECIMAL_PLACES - Z.of_nat d))).
  destruct (10 ^ Z.of_nat d)%Z as [|s|s] eqn:Es; try lia.
  unfold Qdiv, Qmult, Qinv, inject_Z. cbn [Qnum Qden Pos.mul].
  rewrite <- Es. unfold BigNumber.DECIMAL_PLACES in *.
  rewrite <- (Z.pow_add_r 10) by lia. f_equal. lia.
Qed.

Lemma normalized_amount_is_exact_up_to_20_decimals_witness :
  exists q,
    Dammv2.normalized 150000000
      {| Dammv2.address := Examples.USDC; Dammv2.decimals := 6 |} = BigNumber.Fin q
    /\ q == 150.
Proof.
  destruct (normalized_amount_is_exact_up_to_20_decimals 150000000
              {| Dammv2.address := Examples.USDC; Dammv2.decimals := 6 |})
    as (q & E & _ & X).
  exists q. split; [exact E|].
  rewrite X; [reflexivity|]. unfold BigNumber.DECIMAL_PLACES. cbn. lia.
Defined.

End AmountCover.

(* ================================================================== *)
(** * Further properties: the log file and the driver of index.ts *)
(* ================================================================== *)

Module DriverCover.

Import Eff Spec Cover EffFacts TraceFacts PassFacts PersistFacts.
Local Open Scope string_scope.

Lemma quoteRecord_entry isoNow a b c s d :
  storedEntry ([ ("pool_address", JS.VString a);
                 ("amount_out_for_1_SOL", JS.VString b);
                 ("total_tvl", JS.VString c);
                 ("token_symbol", JS.ofOptString s);
                 ("token_address", JS.VString d) ], isoNow)
  = quoteEntry isoNow a b c s d.
Proof. destruct s; reflexivity. Qed.

(** X10.  The entry that the persist operation stores for a record returned
    by a DAMM v2 pass starts with the time stamp of the call.  It then holds
    the error message under [error] (when discovery returned no pool, or the
    state fetched for the selected pool was unusable), or else, for the pool
    the pass selected, the mint account it obtained for the output side and
    the quote it obtained: the pool address, the amount out for 1 SOL, the
    TVL, the symbol and the tracked mint under the labels "Pool address",
    "Price", "TVL", "Symbol name" and "MintB", in this order, the symbol being
    left out of the file when the pool record has no symbol for the tracked
    token's side. *)
Theorem stored_entry_of_a_pass :
  forall token env fuel record log isoNow,
    Dammv2.getRealtimeSwapPrice token env fuel = (Returns record, log) ->
    (storedEntry (record, isoNow) = errorEntry isoNow "No SOL-token pool found."
     /\ exists log0, Dammv2.fetchSolTokenPools token env fuel = (Returns [], log0))
    \/ (storedEntry (record, isoNow)
        = errorEntry isoNow "Failed to fetch or parse valid pool state."
        /\ stateless token env fuel)
    \/ exists pool outputMint quote,
         quoted token env fuel pool outputMint quote
         /\ storedEntry (record, isoNow)
            = quoteEntry isoNow
                (Dammv2.pool_address pool)
                (BigNumber.toFixed 6
                   (Dammv2.normalized (Dammv2.swapOutAmount quote) outputMint))
                (Dammv2.numberToFixed env (Dammv2.tvlValue pool) 2)
                (if String.eqb token (Dammv2.token_a_mint pool)
                 then Dammv2.token_a_symbol pool
                 else Dammv2.token_b_symbol pool)
                token.
Proof.
  intros token env fuel record log isoNow H.
  unfold Dammv2.getRealtimeSwapPrice in H.
  apply bind_Returns in H. destruct H as ([rec [L|]] & l1 & l2 & R & H & _);
    injection H as <- _; cbn [fst].
  - right. right.
    destruct (PassCover.runPass_quoted _ _ _ _ _ _ R) as (Q & ->).
    exists (Dammv2.pool L), (Dammv2.outputMint L), (Dammv2.quote L).
    split; [exact Q|]. apply quoteRecord_entry.
  - destruct (PassCover.runPass_early _ _ _ _ _ R) as [(-> & D)|(-> & S)].
    + left. split; [reflexivity|exact D].
    + right. left. split; [reflexivity|exact S].
Qed.

Lemma stored_entry_of_a_pass_witness :
  exists pool outputMint quote,
    quoted Examples.USDC Examples.sideBEnv 2 pool outputMint quote
    /\ JS.VObject
         [ ("timestamp", JS.VString "2024-01-01T00:00:00.000Z");
           ("Pool address", JS.VString Examples.POOL_2);
           ("Price", JS.VString "150.000000");
           ("TVL", JS.VString "500.00");
           ("Symbol name", JS.VString "A");
           ("MintB", JS.VString Examples.USDC) ]
       = quoteEntry "2024-01-01T00:00:00.000Z"
           (Dammv2.pool_address pool)
           (BigNumber.toFixed 6
              (Dammv2.normalized (Dammv2.swapOutAmount quote) outputMint))
           (Dammv2.numberToFixed Examples.sideBEnv (Dammv2.tvlValue pool) 2)
           (if String.eqb Examples.USDC (Dammv2.token_a_mint pool)
            then Dammv2.token_a_symbol pool
            else Dammv2.token_b_symbol pool)
           Examples.USDC.
Proof.
  destruct (stored_entry_of_a_pass Examples.USDC Examples.sideBEnv 2
              [ ("pool_address", JS.VString Examples.POOL_2);
                ("amount_out_for_1_SOL", JS.VString "150.000000");
                ("total_tvl", JS.VString "500.00");
                ("token_symbol", JS.VString "A");
                ("token_address", JS.VString Examples.USDC) ]
              (events (Dammv2.getRealtimeSwapPrice Examples.USDC Examples.sideBEnv 2))
              "2024-01-01T00:00:00.000Z" ltac:(vm_compute; reflexivity))
    as [[E _]|[[E _]|Q]]; [discriminate E|discriminate E|exact Q].
Defined.






(** One call of the persist operation leaves every other path, and what
    may be written, as they were. *)
Lemma save_frame result filename isoNow fs :
  let fs' := snd (Dammv2.saveFormattedResultToJson result filename isoNow fs) in
  (forall p, p <> filename -> Dammv2.files fs' p = Dammv2.files fs p)
  /\ (forall p, Dammv2.writable fs' p = Dammv2.writable fs p).
Proof.
  unfold Dammv2.saveFormattedResultToJson.
  destruct (Dammv2.writable fs filename); cbn; split; try reflexivity.
  intros p Hp. apply String.eqb_neq in Hp. rewrite Hp. reflexivity.
Qed.

Section Driver.

Variable world : Index.World.
Variable token : string.
Variable fuel : nat.



Lemma loop_frame n : forall i fs log,
  (forall p, p <> "latest_price.json" ->
     Dammv2.files (fsOf (Index.loop world token fuel n i fs log)) p = Dammv2.files fs p)
  /\ (forall p,
        Dammv2.writable (fsOf (Index.loop world token fuel n i fs log)) p
        = Dammv2.writable fs p).
Proof.
  induction n as [|n IH]; intros i fs log; [split; reflexivity|].
  cbn [Index.loop].
  destruct (Dammv2.getRealtimeSwapPrice token (Index.envAt world i) fuel)
    as [[result|e|] evs]; [|split; reflexivity..].
  pose proof (save_frame result "latest_price.json" (Index.isoTimeAt world i) fs) as F.
  destruct (Dammv2.saveFormattedResultToJson result "latest_price.json"
              (Index.isoTimeAt world i) fs) as [[u|e|] fs1];
    cbn [snd] in F; cbv zeta in F; [|exact F..].
  destruct F as [F1 F2].
  match goal with
  | |- context [Index.loop world token fuel n (S i) fs1 ?l] =>
      destruct (IH (S i) fs1 l) as [I1 I2]
  end.
  split.
  - intros p Hp. rewrite I1, F1; [reflexivity|exact Hp|exact Hp].
  - intros p. rewrite I2, F2. reflexivity.
Qed.

End Driver.



(** X12.  Whatever happens (passes that return, throw or do not finish; a
    log file that cannot be written; an invalid address), the driver of
    index.ts leaves every path other than latest_price.json as it was, and
    changes no permission. *)
Theorem driver_touches_only_its_log_file :
  forall world fuel token passes fs,
    (forall p, p <> "latest_price.json" ->
       Dammv2.files (fsOf (Index.main world fuel token passes fs)) p
       = Dammv2.files fs p)
    /\ (forall p,
          Dammv2.writable (fsOf (Index.main world fuel token passes fs)) p
          = Dammv2.writable fs p).
Proof.
  intros world fuel token passes fs. unfold Index.main.
  destruct (PublicKey.isValid token); [apply loop_frame|split; reflexivity].
Qed.

End DriverCover.

(* ================================================================== *)
(** * Further properties: price_final.ts *)
(* ================================================================== *)

Module BinCover.

Import Eff Spec Cover EffFacts TraceFacts PassFacts.
Local Open Scope string_scope.












End BinCover.

(* ================================================================== *)
(** * Further properties: what makes a DAMM v2 pass throw *)
(* ================================================================== *)

Module ThrowCover.

Import Eff Spec Cover EffFacts TraceFacts PassFacts.
Local Open Scope string_scope.

Lemma bind_Throws {A B} (m : M A) (k : A -> M B) reason log :
  bind m k = (Throws reason, log) ->
  m = (Throws reason, log)
  \/ exists a l1 l2, m = (Returns a, l1) /\ k a = (Throws reason, l2).
Proof.
  destruct m as [[a|e|] l1]; cbn [bind].
  - destruct (k a) as [o l2] eqn:E. intros [= -> _]. right. exists a, l1, l2. auto.
  - intros [= -> ->]. left. reflexivity.
  - discriminate.
Qed.

Lemma newPublicKey_Throws s reason log :
  newPublicKey s = (Throws reason, log) ->
  reason = PublicKey.failure s /\ PublicKey.isValid s = false.
Proof.
  unfold newPublicKey. destruct (PublicKey.isValid s); [discriminate|].
  intros [= <- _]. split; reflexivity.
Qed.

Lemma await_Throws {A} e (r : JS.Result A) reason log :
  await e r = (Throws reason, log) -> r = JS.Rejected reason.
Proof. destruct r as [a|x]; cbn; [discriminate|]. intros [= <- _]. reflexivity. Qed.

Lemma promiseAll2_Throws {A B} (p : JS.Result A) (q : JS.Result B) reason log :
  promiseAll2 p q = (Throws reason, log) ->
  p = JS.Rejected reason \/ q = JS.Rejected reason.
Proof.
  destruct p as [a|x], q as [b|y]; cbn; try discriminate;
    intros [= <- _]; auto.
Qed.

(** Follow a pass that threw through one more call. *)
Ltac thrown H x :=
  let l1 := fresh "l" in
  let l2 := fresh "l" in
  let E := fresh "E" in
  apply bind_Throws in H; destruct H as [H|(x & l1 & l2 & E & H)].

(** The key that was built is the text it was built from. *)
Ltac valid_key :=
  match goal with
  | E : newPublicKey _ = (Returns _, _) |- _ =>
      apply newPublicKey_Returns in E; destruct E as (-> & _ & _)
  end.

(** X16.  A DAMM v2 pass throws (and so ends the driver of index.ts) only
    after discovery returned and a pool was selected, and only for one of
    these reasons: an address of the selected pool record (the pool's or one
    of its two mints') is not a valid public key, the reason being the
    message of the key constructor for that text ("Non-base58 character" or
    "Invalid public key input"); or the call for the pool state, for the
    mint account of the native mint or of one of the pool's two mints, for
    the epoch, for the slot or for the quote of 10^9 base units of the native
    mint was rejected, the reason thrown being that of the rejected call.  A
    failure of the pool index never makes a pass throw. *)
Theorem pass_throws_only_on_a_node_failure :
  forall token env fuel reason log,
    Dammv2.getRealtimeSwapPrice token env fuel = (Throws reason, log) ->
    exists pools log0 pool,
      Dammv2.fetchSolTokenPools token env fuel = (Returns pools, log0)
      /\ Dammv2.findHighestTvlPool pools = Some pool
      /\ fatal env pool reason.
Proof.
  intros token env fuel reason log H.
  unfold Dammv2.getRealtimeSwapPrice in H.
  thrown H r; [|discriminate H].
  unfold Dammv2.runPass in H.
  thrown H pools.
  { exfalso. exact (DiscoveryFacts.fetchSolTokenPools_never_throws _ _ _ _ _ H). }
  destruct (Dammv2.findHighestTvlPool pools) as [pool|] eqn:Sel; [|discriminate H].
  exists pools. eexists. exists pool. split; [eassumption|]. split; [exact Sel|].
  unfold fatal.
  assert (Key : forall address l',
             In address [Dammv2.pool_address pool; Dammv2.token_a_mint pool;
                         Dammv2.token_b_mint pool] ->
             newPublicKey address = (Throws reason, l') ->
             exists a,
               In a [Dammv2.pool_address pool; Dammv2.token_a_mint pool;
                     Dammv2.token_b_mint pool]
               /\ PublicKey.isValid a = false /\ reason = PublicKey.failure a).
  { intros address l' I T. apply newPublicKey_Throws in T. destruct T as [-> V].
    exists address. auto. }
  assert (Mint : forall mint,
             In mint [Constants.SOL_MINT; Dammv2.token_a_mint pool;
                      Dammv2.token_b_mint pool] ->
             Dammv2.getMint env mint = JS.Rejected reason ->
             exists m,
               In m [Constants.SOL_MINT; Dammv2.token_a_mint pool;
                     Dammv2.token_b_mint pool]
               /\ Dammv2.getMint env m = JS.Rejected reason).
  { intros mint I R. exists mint. auto. }
  thrown H poolKey.
  { left. apply (Key _ _ (or_introl eq_refl) H). }
  valid_key.
  thrown H fetched.
  { apply await_Throws in H. right. left. exact H. }
  destruct (Dammv2.stateUnavailable fetched); [discriminate H|].
  destruct fetched as [state|]; [|discriminate H].
  thrown H u1; [discriminate H|].
  assert (Other : In (if negb (String.eqb (Dammv2.token_a_mint pool) Constants.SOL_MINT)
                      then Dammv2.token_a_mint pool else Dammv2.token_b_mint pool)
                     [Dammv2.token_a_mint pool; Dammv2.token_b_mint pool]).
  { destruct (negb _); [left|right; left]; reflexivity. }
  thrown H otherKey.
  { left. refine (Key _ _ _ H). right. exact Other. }
  valid_key.
  thrown H u2; [discriminate H|].
  thrown H mints.
  { apply promiseAll2_Throws in H. right. right. left.
    destruct H as [H|H].
    - exact (Mint _ (or_introl eq_refl) H).
    - refine (Mint _ _ H). right. exact Other. }
  destruct mints as [inputMint outputMint].
  thrown H epochIn.
  { apply await_Throws in H. right. right. right. left. exact H. }
  thrown H epochOut.
  { apply await_Throws in H. right. right. right. left. exact H. }
  thrown H slot.
  { apply await_Throws in H. do 4 right. left. exact H. }
  thrown H quote.
  { apply await_Throws in H. do 5 right. eexists.
    split; [|split; [|exact H]]; reflexivity. }
  thrown H keyA.
  { left. refine (Key _ _ _ H). right. left. reflexivity. }
  valid_key.
  thrown H u3; [discriminate H|].
  thrown H keyB.
  { left. refine (Key _ _ _ H). right. right. left. reflexivity. }
  valid_key.
  thrown H u4; [discriminate H|].
  thrown H mintsAB.
  { apply promiseAll2_Throws in H. right. right. left.
    destruct H as [H|H]; refine (Mint _ _ H).
    - right. left. reflexivity.
    - right. right. left. reflexivity. }
  destruct mintsAB as [tokenAMint tokenBMint]. discriminate H.
Qed.

Lemma pass_throws_only_on_a_node_failure_witness :
  (exists pools log0 pool,
      Dammv2.fetchSolTokenPools Examples.USDC Examples.failingStateEnv 2
      = (Returns pools, log0)
      /\ Dammv2.findHighestTvlPool pools = Some pool
      /\ fatal Examples.failingStateEnv pool "failed to get info about account")
  /\ (exists pools log0 pool,
      Dammv2.fetchSolTokenPools Examples.USDC Cases.badAddressEnv 2
      = (Returns pools, log0)
      /\ Dammv2.findHighestTvlPool pools = Some pool
      /\ fatal Cases.badAddressEnv pool "Non-base58 character").
Proof.
  split.
  - apply (pass_throws_only_on_a_node_failure Examples.USDC Examples.failingStateEnv 2
             "failed to get info about account"
             (events (Dammv2.getRealtimeSwapPrice Examples.USDC
                        Examples.failingStateEnv 2))).
    vm_compute. reflexivity.
  - apply (pass_throws_only_on_a_node_failure Examples.USDC Cases.badAddressEnv 2
             "Non-base58 character"
             (events (Dammv2.getRealtimeSwapPrice Examples.USDC Cases.badAddressEnv 2))).
    vm_compute. reflexivity.
Defined.

End ThrowCover.

(* ================================================================== *)
(** * The price of the constant-product pool (QuoteEngine) *)
(* ================================================================== *)

Module ReportedPriceClaims.

Import Eff Spec Cover EffFacts PassFacts BigNumberFacts.
Local Open Scope string_scope.

Lemma bind_assoc {A B C} (m : M A) (k : A -> M B) (g : B -> M C) :
  bind (bind m k) g = bind m (fun a => bind (k a) g).
Proof.
  destruct m as [[a|e|] l]; cbn [bind]; try reflexivity.
  destruct (k a) as [[b|e|] l']; cbn [bind]; try reflexivity.
  destruct (g b) as [o l'']. rewrite app_assoc. reflexivity.
Qed.

Lemma bind_ext {A B} (m : M A) (k k' : A -> M B) :
  (forall a, k a = k' a) -> bind m k = bind m k'.
Proof.
  intros E. destruct m as [[a|e|] l]; cbn [bind]; try reflexivity.
  rewrite E. reflexivity.
Qed.

Section Price.

Variable token : string.
Variable env : Dammv2.Env.
Variable price : Z -> nat -> nat -> Q.

Lemma pageLoop_withPrice fuel : forall field offset st,
  Dammv2.pageLoop token (withPrice env price) fuel field offset st
  = Dammv2.pageLoop token env fuel field offset st.
Proof.
  induction fuel as [|fuel IH]; intros field offset st; [reflexivity|].
  cbn [Dammv2.pageLoop].
  change (Dammv2.fetchPage (withPrice env price)) with (Dammv2.fetchPage env).
  destruct (Dammv2.fetchPage env field token offset) as [[|p page]|e];
    try reflexivity; rewrite IH; reflexivity.
Qed.

Lemma fetchSolTokenPools_withPrice fuel :
  Dammv2.fetchSolTokenPools token (withPrice env price) fuel
  = Dammv2.fetchSolTokenPools token env fuel.
Proof.
  unfold Dammv2.fetchSolTokenPools. rewrite pageLoop_withPrice.
  apply bind_ext. intros st1. rewrite pageLoop_withPrice. reflexivity.
Qed.

(** What a pass returns and does is the same whatever the SDK's
    [getPriceFromSqrtPrice] computes. *)
Lemma report_ignores_price fuel :
  Dammv2.getRealtimeSwapPrice token (withPrice env price) fuel
  = Dammv2.getRealtimeSwapPrice token env fuel.
Proof.
  unfold Dammv2.getRealtimeSwapPrice, Dammv2.runPass.
  rewrite fetchSolTokenPools_withPrice.
  cbn [withPrice Dammv2.fetchPoolState Dammv2.getMint Dammv2.getEpochInfo
       Dammv2.getSlot Dammv2.getQuote Dammv2.dateNow Dammv2.numberToFixed
       Dammv2.getPriceFromSqrtPrice].
  rewrite !bind_assoc. apply bind_ext. intros pools.
  destruct (Dammv2.findHighestTvlPool pools) as [pool|]; [|reflexivity].
  rewrite !bind_assoc. apply bind_ext. intros poolKey.
  rewrite !bind_assoc. apply bind_ext. intros fetched.
  destruct (Dammv2.stateUnavailable fetched); [reflexivity|].
  destruct fetched as [state|]; [|reflexivity].
  repeat (rewrite ?bind_assoc; apply bind_ext; intros;
          try match goal with
              | |- context [match ?x with pair _ _ => _ end] => destruct x
              end).
  reflexivity.
Qed.

End Price.

(** C5, amended.  In a pass that reaches its final return, the raw price
    is the SDK's price of the pool's square-root price with the decimals of
    mints A and B, and the final price computed from it is [1 / rawPrice]
    when the tracked token is side A (for a non-zero raw price, a decimal
    within half a unit of the 20th decimal place of the exact reciprocal)
    and the raw price itself when the tracked token is side B (of a pool with
    two distinct mints).  The final price is not reported: the returned
    record is the five-key record of the pool, whose only price is the
    quoted amount out for 1 SOL, and what the pass returns and does is the
    same whatever the raw price is. *)
Theorem final_price_is_inverted_but_not_reported :
  forall token env fuel record L log,
    Dammv2.runPass token env fuel = (Returns (record, Some L), log) ->
    (exists state,
        Dammv2.fetchPoolState env (Dammv2.pool_address (Dammv2.pool L))
        = JS.Resolved (Some state)
        /\ Dammv2.getMint env (Dammv2.token_a_mint (Dammv2.pool L))
           = JS.Resolved (Dammv2.tokenAMint L)
        /\ Dammv2.getMint env (Dammv2.token_b_mint (Dammv2.pool L))
           = JS.Resolved (Dammv2.tokenBMint L)
        /\ Dammv2.rawPrice L
           = Dammv2.getPriceFromSqrtPrice env (Dammv2.sqrtPrice state)
               (Dammv2.decimals (Dammv2.tokenAMint L))
               (Dammv2.decimals (Dammv2.tokenBMint L)))
    /\ (token = Dammv2.token_a_mint (Dammv2.pool L) ->
        Dammv2.finalPrice L
        = BigNumber.dividedBy (BigNumber.Fin 1) (BigNumber.Fin (Dammv2.rawPrice L))
        /\ (~ Dammv2.rawPrice L == 0 ->
            exists p,
              Dammv2.finalPrice L = BigNumber.Fin p
              /\ Qabs (p - 1 / Dammv2.rawPrice L) <= 1 # 200000000000000000000))
    /\ (token = Dammv2.token_b_mint (Dammv2.pool L) ->
        Dammv2.token_a_mint (Dammv2.pool L) <> Dammv2.token_b_mint (Dammv2.pool L) ->
        Dammv2.finalPrice L = BigNumber.Fin (Dammv2.rawPrice L))
    /\ quoted token env fuel (Dammv2.pool L) (Dammv2.outputMint L) (Dammv2.quote L)
    /\ record = passRecord token env (Dammv2.pool L) (Dammv2.outputMint L)
                           (Dammv2.quote L)
    /\ keysOf record
       = ["pool_address"; "amount_out_for_1_SOL"; "total_tvl"; "token_symbol";
          "token_address"]
    /\ (forall price,
          Dammv2.getRealtimeSwapPrice token (withPrice env price) fuel
          = Dammv2.getRealtimeSwapPrice token env fuel).
Proof.
  intros token env fuel record L log H.
  destruct (runPass_reached _ _ _ _ _ _ H) as (pools & state & params & R).
  pose proof (reached_finalPrice R) as FP.
  destruct (PassCover.runPass_quoted _ _ _ _ _ _ H) as (Q & Rec).
  split; [|split; [|split; [|split; [exact Q|split; [exact Rec|split]]]]].
  - exists state. split; [exact (reached_fetch R)|].
    split; [exact (reached_mintA R)|].
    split; [exact (reached_mintB R)|exact (reached_rawPrice R)].
  - intros ->. rewrite String.eqb_refl in FP. split; [exact FP|].
    intros NZ. rewrite FP. apply reciprocal_error. exact NZ.
  - intros -> D.
    assert (E : String.eqb (Dammv2.token_b_mint (Dammv2.pool L))
                           (Dammv2.token_a_mint (Dammv2.pool L)) = false).
    { apply String.eqb_neq. congruence. }
    rewrite E in FP. exact FP.
  - rewrite Rec. reflexivity.
  - intros price. apply report_ignores_price.
Qed.

Lemma final_price_is_inverted_but_not_reported_witness :
  exists record L log,
    Dammv2.runPass Examples.USDC Examples.sideBEnv 2 = (Returns (record, Some L), log)
    /\ Dammv2.finalPrice L
       = BigNumber.dividedBy (BigNumber.Fin 1) (BigNumber.Fin (Dammv2.rawPrice L))
    /\ record = passRecord Examples.USDC Examples.sideBEnv (Dammv2.pool L)
                           (Dammv2.outputMint L) (Dammv2.quote L).
Proof.
  destruct (Dammv2.runPass Examples.USDC Examples.sideBEnv 2)
    as [[[record [L|]]|e|] log] eqn:E;
    try (vm_compute in E; discriminate E).
  exists record, L, log. split; [reflexivity|].
  destruct (final_price_is_inverted_but_not_reported _ _ _ _ _ _ E)
    as (_ & A & _ & _ & Rec & _).
  split; [|exact Rec]. apply A.
  vm_compute in E. injection E as _ <- _. reflexivity.
Defined.

(** C5 as stated fails: the price is inverted, but what is reported is not
    it.  With the tracked token on side A of a pool whose raw price is 1/200,
    the final price computed is 200, while the returned record holds no such
    value: its only price is the quoted amount, 150 tokens for 1 SOL, and the
    pass returns and does the same with a raw price of 1/150. *)
Lemma reported_price_is_not_the_inverted_price :
  exists L log,
    Dammv2.runPass Examples.USDC Cases.skewedEnv 2
    = (Returns
         ([ ("pool_address", JS.VString Examples.POOL_2);
            ("amount_out_for_1_SOL", JS.VString "150.000000");
            ("total_tvl", JS.VString "500.00");
            ("token_symbol", JS.VString "A");
            ("token_address", JS.VString Examples.USDC) ], Some L), log)
    /\ Dammv2.token_a_mint (Dammv2.pool L) = Examples.USDC
    /\ Dammv2.rawPrice L == 1 # 200
    /\ (exists p, Dammv2.finalPrice L = BigNumber.Fin p /\ p == 200)
    /\ Dammv2.getRealtimeSwapPrice Examples.USDC Cases.skewedEnv 2
       = Dammv2.getRealtimeSwapPrice Examples.USDC Examples.sideBEnv 2.
Proof.
  do 2 eexists. split; [vm_compute; reflexivity|].
  cbn [Dammv2.pool Dammv2.rawPrice Dammv2.finalPrice Dammv2.token_a_mint].
  split; [reflexivity|]. split; [reflexivity|].
  split; [eexists; split; [reflexivity|vm_compute; reflexivity]|].
  vm_compute. reflexivity.
Qed.

End ReportedPriceClaims.

(* ================================================================== *)
(** * The price of the active bin (QuoteEngine, bin model) *)
(* ================================================================== *)

Module BinPriceClaims.

Import Eff Spec Cover.
Local Open Scope string_scope.



Lemma priceField_number env r y :
  Dlmm.priceField env r = JS.VNumber y -> exists x, r = Some x.
Proof. destruct r as [x|]; [eexists; reflexivity|discriminate]. Qed.




End BinPriceClaims.
